(** * causeofwhy: answer extraction (answer_engine.py)

    A shallow embedding of [causeofwhy/answer_engine.py] and the properties
    of its answer-extraction pipeline: pagination of the ranked documents,
    query analysis, sentence matching and answer assembly.

    The program is Python 2 (implicit relative import of [indexer], [zip]
    returning a list).  Python exceptions are modelled by the result type
    [res]; the modules the engine imports ([nltk], [nltk.corpus.wordnet],
    [indexer]) are not part of the file and are taken as the interface
    [Env]. *)

From Stdlib Require Import String Ascii List ZArith Lia Bool Sorted QArith.
Import ListNotations.
Local Close Scope Q_scope.
Local Open Scope string_scope.
Local Open Scope list_scope.

(** ** Python values the engine manipulates *)

Module Py.

(** A raised exception: its class name and its message. *)
Record exn : Type := Exn { exn_type : string; exn_msg : string }.

(** The outcome of evaluating a Python expression or statement list. *)
Inductive res (A : Type) : Type :=
| Ret (a : A)
| Raise (e : exn).
Arguments Ret {A} a.
Arguments Raise {A} e.

Definition bind {A B : Type} (c : res A) (k : A -> res B) : res B :=
  match c with
  | Ret a => k a
  | Raise e => Raise e
  end.

Definition raises {A : Type} (c : res A) : Prop := exists e, c = Raise e.

(** [seq[start:stop]] for integer bounds: a negative bound counts from the
    end, and both bounds are clipped to the sequence (CPython's
    [PySlice_AdjustIndices] with step 1). *)
Definition adjust_index (len i : Z) : Z :=
  if (i <? 0)%Z then Z.max 0 (i + len) else Z.min i len.

Definition slice {A : Type} (l : list A) (start stop : Z) : list A :=
  let len := Z.of_nat (length l) in
  let lo := adjust_index len start in
  let hi := adjust_index len stop in
  firstn (Z.to_nat (hi - lo)) (skipn (Z.to_nat lo) l).

(** [a, b = zip( *pairs)] in Python 2: [zip] of the pairs spread as
    arguments is the list of the two columns when there is at least one
    pair and the empty list otherwise, and unpacking the empty list into
    two names raises [ValueError]. *)
Definition unpack_error : exn :=
  Exn "ValueError" "need more than 0 values to unpack".

Definition unpack_zip_star {A B : Type} (pairs : list (A * B))
  : res (list A * list B) :=
  match pairs with
  | [] => Raise unpack_error
  | _ :: _ => Ret (map fst pairs, map snd pairs)
  end.

(** Keys of the dict literal in [_analyze_query]: Python booleans, looked
    up with a Python string.  A [str] never equals a [bool]. *)
Inductive key : Type :=
| KBool (b : bool)
| KStr (s : string).

Definition key_eqb (a b : key) : bool :=
  match a, b with
  | KBool x, KBool y => Bool.eqb x y
  | KStr x, KStr y => String.eqb x y
  | _, _ => false
  end.

(** A dict as its items in insertion order. *)
Definition dict (V : Type) : Type := list (key * V).

Fixpoint dict_setitem {V : Type} (d : dict V) (k : key) (v : V) : dict V :=
  match d with
  | [] => [(k, v)]
  | (k', v') :: rest =>
      if key_eqb k' k then (k', v) :: rest
      else (k', v') :: dict_setitem rest k v
  end.

(** [{k1: v1, k2: v2, ...}]: the items are inserted left to right, a
    repeated key keeps its place and takes the last value. *)
Definition dict_literal {V : Type} (items : list (key * V)) : dict V :=
  fold_left (fun d kv => dict_setitem d (fst kv) (snd kv)) items [].

(** [d.get(k, None)]. *)
Fixpoint dict_get {V : Type} (d : dict V) (k : key) : option V :=
  match d with
  | [] => None
  | (k', v) :: rest => if key_eqb k' k then Some v else dict_get rest k
  end.

(** Truth value of [None] or a string, as tested by [if pos:]. *)
Definition truthy (v : option string) : bool :=
  match v with
  | None => false
  | Some s => negb (String.eqb s "")
  end.

(** [' '.join(tokens)]. *)
Definition join_spaces (tokens : list string) : string :=
  String.concat " " tokens.

End Py.

Import Py.

Declare Scope py_scope.
Notation "x <- c ;; k" := (bind c (fun x => k))
  (at level 61, c at next level, right associativity) : py_scope.
Local Open Scope py_scope.

(** ** The imported modules

    [nltk.pos_tag], [nltk.corpus.wordnet] and the project's [indexer]
    module (tokenizer, [regularize], the [Index] and [Page] classes) are
    outside [answer_engine.py]; the engine is verified against any
    implementation of them.  Only [lch_similarity] is called inside a
    [try], so it is the one whose raising is modelled. *)

Class Env : Type := {
  (** [nltk.corpus.reader.wordnet.Synset] *)
  Synset : Type;
  (** the numbers the engine compares: what [lch_similarity] returns
      (a float, or [None] when no path exists), the threshold [lch] and
      the similarity scores of the index *)
  Score : Type;
  (** [indexer.Page] objects and their identifiers *)
  Page : Type;
  PageID : Type;
  (** [indexer.Index] *)
  Index : Type;

  (** [a >= b] on scores *)
  score_ge : Score -> Score -> bool;

  (** [nltk.pos_tag(tokens)] *)
  pos_tag : list string -> list (string * string);
  (** [wordnet.synsets(word, pos=pos)] *)
  wn_synsets : string -> option string -> list Synset;
  (** [wordnet.synset(name)] *)
  wn_synset : string -> Synset;
  (** [net1.lch_similarity(net2)] *)
  lch_similarity : Synset -> Synset -> res Score;

  (** [indexer.tokenizer.tokenize(text)], [indexer.regularize(tokens)] *)
  tokenize : string -> list string;
  regularize : list string -> list string;
  (** [index.ranked(tokens)], [index.get_page(ids)] *)
  ranked : Index -> list string -> list (PageID * Score);
  get_page : Index -> list PageID -> list Page;

  (** [page.cosine_sim = sim], [page.preprocess()],
      [page.tokenize_sentences()], [page.sentences] *)
  set_cosine_sim : Page -> Score -> Page;
  preprocess : Page -> Page;
  tokenize_sentences : Page -> Page;
  sentences : Page -> list (list string)
}.

(** [wordnet.NOUN], [wordnet.VERB], [wordnet.ADJ], [wordnet.ADV]. *)
Definition NOUN : string := "n".
Definition VERB : string := "v".
Definition ADJ : string := "a".
Definition ADV : string := "r".

(** ** [class Answer]

    An answer keeps a reference to its [Page] object, not a copy.  The
    page objects of an engine are the elements of its [pages] list, each
    a separate object fetched by [index.get_page]; a reference is the
    position of the object in that list. *)
Record Answer : Type := mkAnswer { page : nat; text : string }.

(** ** [class AnswerEngine] *)

Module AnswerEngine.
Section Methods.
Context `{env : Env}.

(** The attributes of an instance.  [pages] holds the current state of
    the page objects, which the methods update in place. *)
Record self : Type := mkSelf {
  query : string;
  start : Z;
  num_top : Z;
  lch : Score;
  answers : option (list Answer);
  ir_query : list string;
  ir_query_tagged : option (list (string * list Synset));
  num_pages : Z;
  pages : list Page
}.

(** [for page, sim in zip(self.pages, similarity): page.cosine_sim = sim].
    [zip] stops at the shorter list; the pages beyond it stay as fetched. *)
Fixpoint assign_cosine_sim (pgs : list Page) (similarity : list Score)
  : list Page :=
  match pgs, similarity with
  | pg :: pgs', sim :: similarity' =>
      set_cosine_sim pg sim :: assign_cosine_sim pgs' similarity'
  | _, _ => pgs
  end.

(** The candidate window, [page_sim[start:num_top]] (line 75). *)
Definition window (page_sim : list (PageID * Score)) (start num_top : Z)
  : list (PageID * Score) :=
  slice page_sim start num_top.

Definition __init__ (index : Index) (query : string) (start num_top : Z)
  (lch : Score) : res self :=
  let ir_query := regularize (tokenize query) in
  let page_sim := ranked index ir_query in
  let num_pages := Z.of_nat (length page_sim) in
  let page_sim := window page_sim start num_top in
  cols <- unpack_zip_star page_sim ;;
  let page_ids := fst cols in
  let similarity := snd cols in
  let pgs := get_page index page_ids in
  Ret (mkSelf query start num_top lch None ir_query None num_pages
         (assign_cosine_sim pgs similarity)).

(** The dict lookup of lines 93-98: the keys are the four booleans
    [pos.startswith(..)], the key looked up is the tag [pos] itself. *)
Definition coarse_pos (pos : string) : option string :=
  dict_get
    (dict_literal
       [ (KBool (String.prefix "N" pos), NOUN);
         (KBool (String.prefix "V" pos), VERB);
         (KBool (String.prefix "J" pos), ADJ);
         (KBool (String.prefix "R" pos), ADV) ])
    (KStr pos).

(** The body of the loop over the tagged tokens (lines 93-103). *)
Definition tag_entry (word pos : string) : string * list Synset :=
  let pos := coarse_pos pos in
  let synsets :=
    if truthy pos then wn_synsets word pos else wn_synsets word None in
  (word, synsets).

Fixpoint tag_loop (tagged : list (string * string))
  (ir_query_tagged : list (string * list Synset))
  : list (string * list Synset) :=
  match tagged with
  | [] => ir_query_tagged
  | (word, pos) :: rest =>
      tag_loop rest (ir_query_tagged ++ [tag_entry word pos])
  end.

(** The special hidden term appended last (line 105). *)
Definition cause_term : string * list Synset :=
  ("cause", [wn_synset "cause.v.01"]).

Definition analyzed_query (ir_query : list string)
  : list (string * list Synset) :=
  let tagged := pos_tag ir_query in
  let ir_query_tagged := tag_loop tagged [] in
  ir_query_tagged ++ [cause_term].

Definition _analyze_query (s : self) : self :=
  mkSelf (query s) (start s) (num_top s) (lch s) (answers s) (ir_query s)
    (Some (analyzed_query (ir_query s))) (num_pages s) (pages s).

Definition _analyze_pages (s : self) : self :=
  mkSelf (query s) (start s) (num_top s) (lch s) (answers s) (ir_query s)
    (ir_query_tagged s) (num_pages s)
    (map (fun pg => tokenize_sentences (preprocess pg)) (pages s)).

(** [related(synsets, word2)]: the inner loop over the senses of [word2].
    [true] is the [return True]; [false] is the loop running to its end.
    The [try] holds the call of [lch_similarity] alone, and the bare
    [except] catches whatever it raises and goes on with the next sense. *)
Fixpoint related_inner (self_lch : Score) (net1 : Synset)
  (nets2 : list Synset) : res bool :=
  match nets2 with
  | [] => Ret false
  | net2 :: rest =>
      match lch_similarity net1 net2 with
      | Raise _ => related_inner self_lch net1 rest
      | Ret lch =>
          if score_ge lch self_lch then Ret true
          else related_inner self_lch net1 rest
      end
  end.

(** [related(synsets, word2)] (lines 121-132). *)
Fixpoint related (self_lch : Score) (synsets : list Synset) (word2 : string)
  : res bool :=
  match synsets with
  | [] => Ret false
  | net1 :: rest =>
      hit <- related_inner self_lch net1 (wn_synsets word2 None) ;;
      if hit then Ret true else related self_lch rest word2
  end.

(** The loop over the sentence's terms for one query term (lines
    136-139); the result is the value of [match] when the loop ends. *)
Fixpoint term_loop (self_lch : Score) (term : string)
  (synsets : list Synset) (page_terms : list string) : res bool :=
  match page_terms with
  | [] => Ret false
  | page_term :: rest =>
      if String.eqb term page_term then Ret true
      else
        r <- related self_lch synsets page_term ;;
        if r then Ret true else term_loop self_lch term synsets rest
  end.

(** The loop over the tagged query (lines 134-142). *)
Fixpoint terms_loop (self_lch : Score)
  (tagged : list (string * list Synset)) (sentence : list string)
  : res bool :=
  match tagged with
  | [] => Ret true
  | (term, synsets) :: rest =>
      matched <- term_loop self_lch term synsets (regularize sentence) ;;
      if negb matched then Ret false
      else terms_loop self_lch rest sentence
  end.

(** [sentence_matches(sentence)], a closure over [self]: iterating
    [self.ir_query_tagged] before [_analyze_query] has set it raises. *)
Definition sentence_matches (s : self) (sentence : list string) : res bool :=
  match ir_query_tagged s with
  | None => Raise (Exn "TypeError" "'NoneType' object is not iterable")
  | Some tagged => terms_loop (lch s) tagged sentence
  end.

(** The loop over the sentences of one page (lines 147-151); [pg] is the
    reference to the page object. *)
Fixpoint sentences_loop (s : self) (pg : nat) (sents : list (list string))
  (page_windows : list Answer) : res (list Answer) :=
  match sents with
  | [] => Ret page_windows
  | sentence :: rest =>
      m <- sentence_matches s sentence ;;
      if m
      then sentences_loop s pg rest
             (page_windows ++ [mkAnswer pg (join_spaces sentence)])
      else sentences_loop s pg rest page_windows
  end.

(** The loop over [self.pages] (lines 145-152); [pg] is the position of
    the first page of [pgs] in [self.pages]. *)
Fixpoint pages_loop (s : self) (pg : nat) (pgs : list Page)
  (answers : list Answer) : res (list Answer) :=
  match pgs with
  | [] => Ret answers
  | p :: rest =>
      page_windows <- sentences_loop s pg (sentences p) [] ;;
      pages_loop s (S pg) rest (answers ++ page_windows)
  end.

Definition _extract_answers (s : self) : res self :=
  answers <- pages_loop s 0 (pages s) [] ;;
  Ret (mkSelf (query s) (start s) (num_top s) (lch s) (Some answers)
         (ir_query s) (ir_query_tagged s) (num_pages s) (pages s)).

(** [get_answers(self)]: the instance after the call and the value
    returned, [self.answers]. *)
Definition get_answers (s : self) : res (self * option (list Answer)) :=
  let s := _analyze_query s in
  let s := _analyze_pages s in
  s <- _extract_answers s ;;
  Ret (s, answers s).

End Methods.
End AnswerEngine.

(** The module-level [get_answers(ans_eng)]. *)
Definition get_answers `{env : Env} (ans_eng : AnswerEngine.self)
  : res (AnswerEngine.self * option (list Answer)) :=
  AnswerEngine.get_answers ans_eng.

(** ** A small concrete world

    A toy lexicon, tagger and index on which the engine can be run: it
    serves to evaluate the definitions above and to instantiate the
    theorems below.  Scores are rationals. *)

Module Demo.

Record syn : Type := mkSyn { syn_name : string; syn_pos : string }.

Record page_obj : Type := mkPage {
  page_id : nat;
  lines : list string;
  cosine_sim : option Q;
  sents : list (list string)
}.

(** An index: its documents in rank order, each an identifier, a score
    and the raw lines of the document. *)
Definition index_obj : Type := list (nat * Q * list string).

Fixpoint split_aux (s cur : string) : list string :=
  match s with
  | EmptyString => if String.eqb cur "" then [] else [cur]
  | String c rest =>
      if Ascii.eqb c " "
      then (if String.eqb cur "" then split_aux rest ""
            else cur :: split_aux rest "")
      else split_aux rest (cur ++ String c EmptyString)
  end.

Definition split_words (s : string) : list string := split_aux s "".

Definition stopwords : list string := ["why"; "did"; "the"; "over"; "a"].

Definition drop_stopwords (tokens : list string) : list string :=
  filter (fun t => negb (existsb (String.eqb t) stopwords)) tokens.

Definition tag_of (word : string) : string :=
  if String.eqb word "war" then "NN"
  else if String.eqb word "border" then "NN"
  else if String.eqb word "start" then "VB"
  else if String.eqb word "quickly" then "RB"
  else "XX".

Definition lexicon : list (string * list syn) :=
  [ ("war", [mkSyn "war.n.01" "n"]);
    ("start", [mkSyn "start.n.01" "n"; mkSyn "start.v.01" "v"]);
    ("border", [mkSyn "border.n.01" "n"]);
    ("dispute", [mkSyn "dispute.n.01" "n"; mkSyn "dispute.v.01" "v"]);
    ("cause", [mkSyn "cause.n.01" "n"; mkSyn "cause.v.01" "v"]) ].

Fixpoint lookup {V : Type} (k : string) (tbl : list (string * V))
  : option V :=
  match tbl with
  | [] => None
  | (k', v) :: rest => if String.eqb k k' then Some v else lookup k rest
  end.

Definition synsets_of (word : string) (pos : option string) : list syn :=
  let all := match lookup word lexicon with Some l => l | None => [] end in
  match pos with
  | None => all
  | Some p => filter (fun n => String.eqb (syn_pos n) p) all
  end.

Definition synset_named (name : string) : syn :=
  mkSyn name (String.substring (String.length name - 4) 1 name).

(** Senses of different parts of speech are not comparable. *)
Definition lch_of (a b : syn) : res Q :=
  if negb (String.eqb (syn_pos a) (syn_pos b))
  then Raise (Exn "WordNetError" "different parts of speech")
  else if String.eqb (syn_name a) (syn_name b) then Ret (36 # 10)%Q
  else if String.eqb (syn_name a) "cause.v.01"
          && String.eqb (syn_name b) "dispute.v.01"
       then Ret (22 # 10)%Q
  else Ret (1 # 1)%Q.

Fixpoint find_entry (idx : index_obj) (id : nat) : list page_obj :=
  match idx with
  | [] => []
  | (id', _, ls) :: rest =>
      if Nat.eqb id id' then [mkPage id ls None []] else find_entry rest id
  end.

(** Removing markup: the lines starting with [=] are dropped. *)
Definition strip_markup (p : page_obj) : page_obj :=
  mkPage (page_id p)
         (filter (fun l => negb (String.prefix "=" l)) (lines p))
         (cosine_sim p) (sents p).

Definition env_with (pre : page_obj -> page_obj) : Env := {|
  Synset := syn;
  Score := Q;
  Page := page_obj;
  PageID := nat;
  Index := index_obj;
  score_ge := fun a b => Qle_bool b a;
  pos_tag := map (fun w => (w, tag_of w));
  wn_synsets := synsets_of;
  wn_synset := synset_named;
  lch_similarity := lch_of;
  tokenize := split_words;
  regularize := drop_stopwords;
  ranked := fun idx _ => map fst idx;
  get_page := fun idx ids => flat_map (find_entry idx) ids;
  set_cosine_sim :=
    fun p sim => mkPage (page_id p) (lines p) (Some sim) (sents p);
  preprocess := pre;
  tokenize_sentences :=
    fun p => mkPage (page_id p) (lines p) (cosine_sim p)
               (map split_words (lines p));
  sentences := sents
|}.

Definition env : Env := env_with strip_markup.

(** The threshold, [lch=2.16] by default. *)
Definition lch_default : Q := (216 # 100)%Q.

Definition war_index : index_obj :=
  [ (7, (9 # 10)%Q,
     ["= War ="; "the war did start over a border dispute";
      "the border war did start quickly"]);
    (3, (5 # 10)%Q,
     ["a dispute over the border"; "a dispute did cause the war start"]);
    (5, (1 # 10)%Q, ["the start"]) ].

(** Ten ranked documents, identifiers 100 to 109. *)
Definition ten_index : index_obj :=
  map (fun i => (100 + i, (Z.of_nat (10 - i) # 10)%Q, ["the war"])) (seq 0 10).

End Demo.

(** ** What a sentence has to offer a query term

    The reading of the matching policy that the loops are compared
    with. *)

Section Matching.
Context `{env : Env}.

(** The pair of senses is comparable and its score reaches the
    threshold. *)
Definition pair_reaches (threshold : Score) (net1 net2 : Synset) : Prop :=
  exists sc, lch_similarity net1 net2 = Ret sc /\ score_ge sc threshold = true.

(** Some pair drawn from the senses of the term and the senses of the
    token reaches the threshold. *)
Definition senses_related (threshold : Score) (synsets : list Synset)
  (token : string) : Prop :=
  exists net1 net2,
    In net1 synsets /\ In net2 (wn_synsets token None) /\
    pair_reaches threshold net1 net2.

(** A term of the tagged query is satisfied by the sentence. *)
Definition term_satisfied (threshold : Score) (sentence : list string)
  (t : string * list Synset) : Prop :=
  exists token,
    In token (regularize sentence) /\
    (fst t = token \/ senses_related threshold (snd t) token).

(** The decision for one pair as a boolean: a raised exception counts as
    a score below the threshold. *)
Definition pair_reaches_b (threshold : Score) (net1 net2 : Synset) : bool :=
  match lch_similarity net1 net2 with
  | Ret sc => score_ge sc threshold
  | Raise _ => false
  end.

Definition senses_related_b (threshold : Score) (synsets : list Synset)
  (token : string) : bool :=
  existsb
    (fun net1 => existsb (pair_reaches_b threshold net1)
                   (wn_synsets token None))
    synsets.

Definition term_satisfied_b (threshold : Score) (sentence : list string)
  (t : string * list Synset) : bool :=
  existsb
    (fun token =>
       String.eqb (fst t) token || senses_related_b threshold (snd t) token)
    (regularize sentence).

(** The decision of [sentence_matches] as a boolean; an engine whose
    query has not been analysed yet matches nothing. *)
Definition matches_b (s : AnswerEngine.self) (sentence : list string)
  : bool :=
  match AnswerEngine.ir_query_tagged s with
  | None => false
  | Some tagged =>
      forallb (term_satisfied_b (AnswerEngine.lch s) sentence) tagged
  end.

(** The answers one page contributes: its matching sentences, in the
    order they occur. *)
Definition page_answers (s : AnswerEngine.self) (pg : nat) (p : Page)
  : list Answer :=
  map (fun sentence => mkAnswer pg (join_spaces sentence))
      (filter (matches_b s) (sentences p)).

Fixpoint answers_from (s : AnswerEngine.self) (pg : nat) (pgs : list Page)
  : list Answer :=
  match pgs with
  | [] => []
  | p :: rest => page_answers s pg p ++ answers_from s (S pg) rest
  end.

(** The ranked list the constructor slices. *)
Definition ranking (index : Index) (q : string) : list (PageID * Score) :=
  ranked index (regularize (tokenize q)).

(** What [get_answers] leaves in the instance and returns. *)
Definition analyzed (s : AnswerEngine.self) : AnswerEngine.self :=
  AnswerEngine._analyze_pages (AnswerEngine._analyze_query s).

Definition extracted (s : AnswerEngine.self) : list Answer :=
  answers_from (analyzed s) 0 (AnswerEngine.pages (analyzed s)).

Definition after_get_answers (s : AnswerEngine.self) : AnswerEngine.self :=
  AnswerEngine.mkSelf (AnswerEngine.query s) (AnswerEngine.start s)
    (AnswerEngine.num_top s) (AnswerEngine.lch s) (Some (extracted s))
    (AnswerEngine.ir_query s)
    (Some (AnswerEngine.analyzed_query (AnswerEngine.ir_query s)))
    (AnswerEngine.num_pages s)
    (map (fun pg => tokenize_sentences (preprocess pg))
         (AnswerEngine.pages s)).

End Matching.

(** ** The engine on the small world *)

Module DemoRuns.
Import AnswerEngine.

Definition unwrap `{env : Env} (r : res self) (d : self) : self :=
  match r with
  | Ret s => s
  | Raise _ => d
  end.

Definition blank : self (env := Demo.env) :=
  mkSelf (env := Demo.env) "" 0 0 Demo.lch_default None [] None 0 [].

Definition war_query : string := "why did the war start".

(** The engine built for the query on the three-document index. *)
Definition war_engine : self (env := Demo.env) :=
  unwrap (__init__ (env := Demo.env) Demo.war_index war_query 0 10
            Demo.lch_default) blank.

Definition war_sentence : list string :=
  ["the"; "war"; "did"; "start"; "over"; "a"; "border"; "dispute"].

End DemoRuns.

(** ** Notions used to state further properties *)

(** [Subseq l1 l2]: [l1] is [l2] with some elements left out, the others
    in their order. *)
Inductive Subseq {A : Type} : list A -> list A -> Prop :=
| Subseq_nil : Subseq [] []
| Subseq_skip (x : A) (l1 l2 : list A) :
    Subseq l1 l2 -> Subseq l1 (x :: l2)
| Subseq_keep (x : A) (l1 l2 : list A) :
    Subseq l1 l2 -> Subseq (x :: l1) (x :: l2).

(** The exception of [for term, synsets in None]. *)
Definition not_iterable : exn :=
  Exn "TypeError" "'NoneType' object is not iterable".

(** The number of sentences of a list of pages. *)
Definition sentence_count `{env : Env} (pgs : list Page) : nat :=
  list_sum (map (fun p => length (sentences p)) pgs).

(** The engine of [DemoRuns.war_engine] with a threshold no score
    reaches. *)
Definition strict_lch : Q := (100 # 1)%Q.

Definition war_engine_strict : AnswerEngine.self (env := Demo.env) :=
  DemoRuns.unwrap
    (AnswerEngine.__init__ (env := Demo.env) Demo.war_index
       DemoRuns.war_query 0 10 strict_lch)
    DemoRuns.blank.

(** An engine whose query has not been analysed, over one page that has
    been segmented already. *)
Definition unanalyzed_engine : AnswerEngine.self (env := Demo.env) :=
  AnswerEngine._analyze_pages (env := Demo.env) DemoRuns.war_engine.

(** * Properties *)

(** ** Sentence matching *)

Section MatchingFacts.
Context `{env : Env}.
Import AnswerEngine.

Lemma related_inner_ret (threshold : Score) (net1 : Synset)
  (nets2 : list Synset) :
  related_inner threshold net1 nets2
  = Ret (existsb (pair_reaches_b threshold net1) nets2).
Proof.
  induction nets2 as [|net2 rest IH]; simpl; [reflexivity|].
  unfold pair_reaches_b at 1.
  destruct (lch_similarity net1 net2) as [sc|e]; simpl.
  - destruct (score_ge sc threshold); simpl; [reflexivity|].
    rewrite IH. reflexivity.
  - exact IH.
Qed.

Lemma related_ret (threshold : Score) (synsets : list Synset)
  (word2 : string) :
  related threshold synsets word2
  = Ret (senses_related_b threshold synsets word2).
Proof.
  unfold senses_related_b.
  induction synsets as [|net1 rest IH]; simpl; [reflexivity|].
  rewrite related_inner_ret. simpl.
  destruct (existsb (pair_reaches_b threshold net1) (wn_synsets word2 None));
    simpl; [reflexivity | exact IH].
Qed.

Lemma term_loop_ret (threshold : Score) (term : string)
  (synsets : list Synset) (page_terms : list string) :
  term_loop threshold term synsets page_terms
  = Ret (existsb
           (fun token =>
              String.eqb term token
              || senses_related_b threshold synsets token)
           page_terms).
Proof.
  induction page_terms as [|token rest IH]; simpl; [reflexivity|].
  destruct (String.eqb term token); simpl; [reflexivity|].
  rewrite related_ret. simpl.
  destruct (senses_related_b threshold synsets token); simpl;
    [reflexivity | exact IH].
Qed.

Lemma terms_loop_ret (threshold : Score)
  (tagged : list (string * list Synset)) (sentence : list string) :
  terms_loop threshold tagged sentence
  = Ret (forallb (term_satisfied_b threshold sentence) tagged).
Proof.
  induction tagged as [|[term synsets] rest IH]; simpl; [reflexivity|].
  rewrite term_loop_ret. unfold term_satisfied_b at 1. simpl.
  destruct (existsb _ (regularize sentence)); simpl;
    [exact IH | reflexivity].
Qed.

Lemma sentence_matches_ret (s : self) (sentence : list string) :
  ir_query_tagged s <> None ->
  sentence_matches s sentence = Ret (matches_b s sentence).
Proof.
  unfold sentence_matches, matches_b. intros Htag.
  destruct (ir_query_tagged s) as [tagged|]; [|congruence].
  apply terms_loop_ret.
Qed.

Lemma pair_reaches_b_iff (threshold : Score) (net1 net2 : Synset) :
  pair_reaches_b threshold net1 net2 = true
  <-> pair_reaches threshold net1 net2.
Proof.
  unfold pair_reaches_b, pair_reaches. split.
  - destruct (lch_similarity net1 net2) as [sc|e]; [|discriminate].
    intros H. exists sc. split; [reflexivity | exact H].
  - intros [sc [Hsc Hge]]. rewrite Hsc. exact Hge.
Qed.

Lemma senses_related_b_iff (threshold : Score) (synsets : list Synset)
  (token : string) :
  senses_related_b threshold synsets token = true
  <-> senses_related threshold synsets token.
Proof.
  unfold senses_related_b, senses_related. rewrite existsb_exists. split.
  - intros [net1 [Hin1 Hex]]. apply existsb_exists in Hex.
    destruct Hex as [net2 [Hin2 Hp]]. exists net1, net2.
    rewrite <- pair_reaches_b_iff. auto.
  - intros [net1 [net2 [Hin1 [Hin2 Hp]]]]. exists net1. split; [exact Hin1|].
    apply existsb_exists. exists net2. rewrite pair_reaches_b_iff. auto.
Qed.

Lemma term_satisfied_b_iff (threshold : Score) (sentence : list string)
  (t : string * list Synset) :
  term_satisfied_b threshold sentence t = true
  <-> term_satisfied threshold sentence t.
Proof.
  unfold term_satisfied_b, term_satisfied. rewrite existsb_exists.
  split; intros [token [Hin H]]; exists token; (split; [exact Hin|]).
  - apply orb_true_iff in H. destruct H as [H|H].
    + left. apply String.eqb_eq. exact H.
    + right. apply senses_related_b_iff. exact H.
  - apply orb_true_iff. destruct H as [H|H].
    + left. apply String.eqb_eq. exact H.
    + right. apply senses_related_b_iff. exact H.
Qed.

(** C1. For a tagged query and a sentence, [sentence_matches] returns a
    decision (it does not raise), and the decision is [True] exactly when
    every term of the tagged query is satisfied: some regularized token of
    the sentence equals the term, or some pair drawn from the term's
    senses and the token's senses has a score reaching the threshold.  One
    unsatisfied term rejects the sentence, whatever the other terms do. *)
Theorem sentence_matches_iff_every_term_satisfied
  (s : self) (tagged : list (string * list Synset))
  (sentence : list string) :
  ir_query_tagged s = Some tagged ->
  exists decision,
    sentence_matches s sentence = Ret decision /\
    (decision = true
     <-> Forall (term_satisfied (lch s) sentence) tagged) /\
    (forall t, In t tagged -> ~ term_satisfied (lch s) sentence t ->
               decision = false).
Proof.
  intros Htag. exists (matches_b s sentence).
  assert (Hiff : matches_b s sentence = true
                 <-> Forall (term_satisfied (lch s) sentence) tagged).
  { unfold matches_b. rewrite Htag. rewrite forallb_forall, Forall_forall.
    split; intros H t Hin; apply term_satisfied_b_iff; auto. }
  split; [|split].
  - apply sentence_matches_ret. rewrite Htag. discriminate.
  - exact Hiff.
  - intros t Hin Hnot. destruct (matches_b s sentence) eqn:Hm;
      [|reflexivity].
    exfalso. apply Hnot. destruct Hiff as [Hall _].
    specialize (Hall eq_refl). rewrite Forall_forall in Hall. auto.
Qed.

(** C4. A pair of senses whose relatedness computation raises is skipped:
    the loop goes on with the next pair as if the pair had not been there.
    [related] therefore always returns a boolean, never an exception, and
    it returns [True] exactly when some comparable pair reaches the
    threshold, wherever the failing pairs stand. *)
Theorem related_skips_failing_pairs
  (threshold : Score) (synsets : list Synset) (word2 : string) :
  (forall net1 net2 rest e,
      lch_similarity net1 net2 = Raise e ->
      related_inner threshold net1 (net2 :: rest)
      = related_inner threshold net1 rest) /\
  (exists r,
      related threshold synsets word2 = Ret r /\
      (r = true <-> senses_related threshold synsets word2)) /\
  (forall (s : self) (sentence : list string),
      ir_query_tagged s <> None ->
      ~ raises (sentence_matches s sentence)).
Proof.
  split; [|split].
  - intros net1 net2 rest e He. simpl. rewrite He. reflexivity.
  - exists (senses_related_b threshold synsets word2).
    split; [apply related_ret | apply senses_related_b_iff].
  - intros s sentence Htag [e He].
    rewrite sentence_matches_ret in He by exact Htag. discriminate.
Qed.

(** C5. A query term that equals some regularized token of the sentence
    is satisfied, for every threshold: the loop over the sentence's
    tokens ends with [match = True]. *)
Theorem verbatim_term_satisfied_for_every_threshold
  (threshold : Score) (term : string) (synsets : list Synset)
  (sentence : list string) :
  In term (regularize sentence) ->
  term_loop threshold term synsets (regularize sentence) = Ret true /\
  term_satisfied threshold sentence (term, synsets).
Proof.
  intros Hin. split.
  - rewrite term_loop_ret. f_equal. apply existsb_exists.
    exists term. split; [exact Hin|].
    rewrite String.eqb_refl. reflexivity.
  - exists term. split; [exact Hin | left; reflexivity].
Qed.

End MatchingFacts.

(** ** Query analysis *)

Section QueryFacts.
Context `{env : Env}.
Import AnswerEngine.

Lemma tag_loop_app (tagged : list (string * string))
  (acc : list (string * list Synset)) :
  tag_loop tagged acc
  = acc ++ map (fun wp => tag_entry (fst wp) (snd wp)) tagged.
Proof.
  revert acc. induction tagged as [|[word pos] rest IH]; intros acc; simpl.
  - rewrite app_nil_r. reflexivity.
  - rewrite IH, <- app_assoc. reflexivity.
Qed.

Lemma analyzed_query_eq (tokens : list string) :
  analyzed_query tokens
  = map (fun wp => tag_entry (fst wp) (snd wp)) (pos_tag tokens)
    ++ [cause_term].
Proof.
  unfold analyzed_query. rewrite tag_loop_app. reflexivity.
Qed.

(** The lookup of the tag among the boolean keys finds nothing, whatever
    the tag. *)
Lemma coarse_pos_none (pos : string) : coarse_pos pos = None.
Proof.
  unfold coarse_pos, dict_literal.
  destruct (String.prefix "N" pos), (String.prefix "V" pos),
    (String.prefix "J" pos), (String.prefix "R" pos); reflexivity.
Qed.

Lemma tag_entry_unfiltered (word pos : string) :
  tag_entry word pos = (word, wn_synsets word None).
Proof.
  unfold tag_entry. rewrite coarse_pos_none. reflexivity.
Qed.

(** C7. The tagged query that query analysis stores is never empty and
    ends with the causal term, whose surface form is "cause" and whose
    only sense is [wordnet.synset('cause.v.01')]; before it comes one
    entry per tagged token.  When the tagger returns nothing for the empty
    query, the tagged query is exactly that one entry. *)
Theorem analyzed_query_ends_with_cause_term (s : self) :
  ir_query_tagged (_analyze_query s) = Some (analyzed_query (ir_query s)) /\
  (forall tokens,
      analyzed_query tokens <> [] /\
      last (analyzed_query tokens) ("", []) = cause_term /\
      length (analyzed_query tokens) = S (length (pos_tag tokens))) /\
  cause_term = ("cause", [wn_synset "cause.v.01"]) /\
  (pos_tag [] = [] -> analyzed_query [] = [cause_term]).
Proof.
  split; [reflexivity|]. split; [|split; [reflexivity|]].
  - intros tokens. rewrite analyzed_query_eq. split; [|split].
    + intros H. apply app_eq_nil in H. destruct H as [_ H]. discriminate.
    + apply last_last.
    + rewrite length_app, length_map. simpl. lia.
  - intros Hempty. rewrite analyzed_query_eq, Hempty. reflexivity.
Qed.

End QueryFacts.

(** C3. Query analysis does not filter the senses by the part of speech:
    the dict of lines 93-98 has booleans for keys and is looked up with
    the tag itself, so the lookup yields [None] for every tag and every
    token gets the senses of all parts of speech.  Here the token "start",
    tagged as a verb, gets its noun sense as well, where filtering by
    [wordnet.VERB] would leave the verb sense alone. *)
Theorem analyze_query_keeps_all_senses_of_a_verb :
  pos_tag (Env := Demo.env) ["start"] = [("start", "VB")] /\
  String.prefix "V" "VB" = true /\
  AnswerEngine.coarse_pos "VB" = None /\
  AnswerEngine.analyzed_query (env := Demo.env) ["start"]
  = [ ("start", [Demo.mkSyn "start.n.01" "n"; Demo.mkSyn "start.v.01" "v"]);
      ("cause", [Demo.mkSyn "cause.v.01" "v"]) ] /\
  wn_synsets (Env := Demo.env) "start" (Some VERB)
  = [Demo.mkSyn "start.v.01" "v"] /\
  (forall (env : Env) (word pos : string),
      AnswerEngine.tag_entry word pos = (word, wn_synsets word None)).
Proof.
  repeat split; try reflexivity.
  intros env word pos. apply tag_entry_unfiltered.
Qed.

(** ** Slices *)

Lemma firstn_min_length {A : Type} (b : nat) (l : list A) :
  firstn (Nat.min b (length l)) l = firstn b l.
Proof.
  destruct (Nat.le_ge_cases b (length l)) as [H|H].
  - rewrite Nat.min_l by exact H. reflexivity.
  - rewrite Nat.min_r by exact H.
    rewrite !firstn_all2 by lia. reflexivity.
Qed.

Lemma firstn_skipn_clipped {A : Type} (l : list A) : forall a b : nat,
  firstn (Nat.min b (length l) - Nat.min a (length l))
         (skipn (Nat.min a (length l)) l)
  = skipn a (firstn b l).
Proof.
  induction l as [|x l IH]; intros a b.
  - simpl. rewrite !Nat.min_0_r. simpl.
    rewrite firstn_nil, skipn_nil. reflexivity.
  - destruct a as [|a].
    + rewrite Nat.min_0_l, Nat.sub_0_r. simpl skipn.
      apply firstn_min_length.
    + destruct b as [|b].
      * rewrite Nat.min_0_l. reflexivity.
      * simpl. apply IH.
Qed.

(** For bounds that are not negative, the slice keeps the elements at
    the positions from [start] up to, and not including, [stop]. *)
Lemma slice_nonneg {A : Type} (l : list A) (start stop : Z) :
  (0 <= start)%Z -> (0 <= stop)%Z ->
  slice l start stop
  = skipn (Z.to_nat start) (firstn (Z.to_nat stop) l).
Proof.
  intros Hs He. unfold slice, adjust_index.
  destruct (Z.ltb_spec start 0) as [?|_]; [lia|].
  destruct (Z.ltb_spec stop 0) as [?|_]; [lia|].
  rewrite <- firstn_skipn_clipped. f_equal; [|f_equal]; lia.
Qed.

Lemma nth_error_slice {A : Type} (l : list A) (start stop : Z) (k : nat) :
  (0 <= start)%Z -> (0 <= stop)%Z ->
  nth_error (slice l start stop) k
  = if (start + Z.of_nat k <? stop)%Z
    then nth_error l (Z.to_nat start + k) else None.
Proof.
  intros Hs He. rewrite slice_nonneg by assumption.
  rewrite nth_error_skipn, nth_error_firstn.
  destruct (Nat.ltb_spec (Z.to_nat start + k) (Z.to_nat stop));
    destruct (Z.ltb_spec (start + Z.of_nat k) stop);
    try reflexivity; lia.
Qed.

Lemma length_slice {A : Type} (l : list A) (start stop : Z) :
  Z.of_nat (length (slice l start stop))
  = Z.max 0 (adjust_index (Z.of_nat (length l)) stop
             - adjust_index (Z.of_nat (length l)) start).
Proof.
  unfold slice. rewrite length_firstn, length_skipn.
  unfold adjust_index.
  destruct (Z.ltb_spec start 0); destruct (Z.ltb_spec stop 0); lia.
Qed.

Lemma slice_empty_iff {A : Type} (l : list A) (start stop : Z) :
  (0 <= start)%Z -> (0 <= stop)%Z ->
  slice l start stop = [] <-> (Z.min stop (Z.of_nat (length l)) <= start)%Z.
Proof.
  intros Hs He. rewrite <- length_zero_iff_nil.
  pose proof (length_slice l start stop) as Hlen.
  unfold adjust_index in Hlen.
  destruct (Z.ltb_spec start 0); [lia|].
  destruct (Z.ltb_spec stop 0); [lia|].
  lia.
Qed.

(** ** The constructor and its window *)

Section InitFacts.
Context `{env : Env}.
Import AnswerEngine.

Lemma init_eq (index : Index) (q : string) (start num_top : Z)
  (lch : Score) :
  __init__ index q start num_top lch
  = match window (ranking index q) start num_top with
    | [] => Raise unpack_error
    | w =>
        Ret (mkSelf q start num_top lch None (regularize (tokenize q)) None
               (Z.of_nat (length (ranking index q)))
               (assign_cosine_sim (get_page index (map fst w)) (map snd w)))
    end.
Proof.
  unfold __init__, ranking.
  destruct (window _ start num_top); reflexivity.
Qed.

Lemma init_raises_iff (index : Index) (q : string) (start num_top : Z)
  (lch : Score) :
  raises (__init__ index q start num_top lch)
  <-> window (ranking index q) start num_top = [].
Proof.
  rewrite init_eq. unfold raises.
  destruct (window _ start num_top) as [|x w]; split.
  - reflexivity.
  - intros _. exists unpack_error. reflexivity.
  - intros [e He]. discriminate.
  - discriminate.
Qed.

Lemma init_returns (index : Index) (q : string) (start num_top : Z)
  (lch : Score) :
  window (ranking index q) start num_top <> [] ->
  exists s, __init__ index q start num_top lch = Ret s.
Proof.
  intros Hw. rewrite init_eq.
  destruct (window _ start num_top) as [|x w]; [congruence|].
  eexists. reflexivity.
Qed.

(** C2. For an offset [start] and a bound [num_top] (numbers of pages, so
    not negative), the window the constructor works on is the slice of the
    ranked list from position [start] up to, and not including, position
    [num_top]: its k-th element is the element at rank [start + k] as long
    as [start + k < num_top].  [num_top] is an end position, not a width
    added to [start].  Whenever that window is not empty the constructor
    returns an engine, and the pages of the engine are the pages fetched
    for the identifiers of that window, with the scores of that window. *)
Theorem window_runs_from_start_to_num_top
  (index : Index) (q : string) (start num_top : Z) (lch : Score) :
  (0 <= start)%Z -> (0 <= num_top)%Z ->
  let w := window (ranking index q) start num_top in
  w = skipn (Z.to_nat start) (firstn (Z.to_nat num_top) (ranking index q)) /\
  (forall k : nat,
      nth_error w k
      = if (start + Z.of_nat k <? num_top)%Z
        then nth_error (ranking index q) (Z.to_nat start + k)
        else None) /\
  (forall s, __init__ index q start num_top lch = Ret s ->
             pages s
             = assign_cosine_sim (get_page index (map fst w)) (map snd w)) /\
  (w <> [] ->
   exists s,
     __init__ index q start num_top lch = Ret s /\
     pages s = assign_cosine_sim (get_page index (map fst w)) (map snd w)).
Proof.
  intros Hs Hn w. subst w. unfold window. split; [|split; [|split]].
  - apply slice_nonneg; assumption.
  - intros k. apply nth_error_slice; assumption.
  - intros s Hinit. rewrite init_eq in Hinit. unfold window in Hinit.
    destruct (slice (ranking index q) start num_top) as [|x w];
      [discriminate|].
    injection Hinit as <-. reflexivity.
  - intros Hne. rewrite init_eq. unfold window.
    destruct (slice (ranking index q) start num_top) as [|x w];
      [congruence|].
    eexists. split; reflexivity.
Qed.

(** C6, as the code has it.  The only exception the constructor raises
    by itself is the [ValueError] of the failed unpacking, with the
    interpreter's message, and it is raised when the window is empty; the
    engine has no error of its own for an invalid pagination request.  A
    ranked list that is shorter than [num_top] but longer than [start]
    makes the constructor succeed on the shorter window. *)
Theorem init_raises_only_the_unpack_error
  (index : Index) (q : string) (start num_top : Z) (lch : Score) :
  (window (ranking index q) start num_top = [] ->
   __init__ index q start num_top lch
   = Raise (Exn "ValueError" "need more than 0 values to unpack")) /\
  (forall e, __init__ index q start num_top lch = Raise e ->
             e = Exn "ValueError" "need more than 0 values to unpack" /\
             window (ranking index q) start num_top = []) /\
  ((0 <= start < Z.of_nat (length (ranking index q)))%Z ->
   (Z.of_nat (length (ranking index q)) < num_top)%Z ->
   exists s,
     __init__ index q start num_top lch = Ret s /\
     window (ranking index q) start num_top
     = skipn (Z.to_nat start) (ranking index q)).
Proof.
  split; [|split].
  - intros Hw. rewrite init_eq, Hw. reflexivity.
  - intros e He. rewrite init_eq in He.
    destruct (window _ start num_top) as [|x w]; [|discriminate].
    injection He as <-. split; reflexivity.
  - intros Hs Hn.
    assert (Hw : window (ranking index q) start num_top
                 = skipn (Z.to_nat start) (ranking index q)).
    { unfold window. rewrite slice_nonneg by lia.
      rewrite firstn_all2 by lia. reflexivity. }
    destruct (init_returns index q start num_top lch) as [s Hinit].
    + rewrite Hw. intros Hnil.
      apply (f_equal (@length _)) in Hnil.
      rewrite length_skipn in Hnil. simpl in Hnil. lia.
    + exists s. split; assumption.
Qed.

(** C10. The constructor fails exactly when the slice
    [ranked[start:num_top]] is empty.  For an offset and a bound that are
    not negative this is when [min(num_top, number of ranked documents)
    <= start]: construction with [start >= num_top] fails even though
    [start] is below the number of ranked documents, while a window that
    is not empty, however short, makes the constructor succeed. *)
Theorem init_fails_exactly_on_empty_window
  (index : Index) (q : string) (start num_top : Z) (lch : Score) :
  (raises (__init__ index q start num_top lch)
   <-> window (ranking index q) start num_top = []) /\
  ((0 <= start)%Z -> (0 <= num_top)%Z ->
   (raises (__init__ index q start num_top lch)
    <-> (Z.min num_top (Z.of_nat (length (ranking index q))) <= start)%Z)) /\
  (ranking index q <> [] ->
   (0 <= num_top <= start)%Z ->
   (start < Z.of_nat (length (ranking index q)))%Z ->
   raises (__init__ index q start num_top lch)) /\
  (window (ranking index q) start num_top <> [] ->
   exists s, __init__ index q start num_top lch = Ret s).
Proof.
  split; [|split; [|split]].
  - apply init_raises_iff.
  - intros Hs Hn. rewrite init_raises_iff. unfold window.
    apply slice_empty_iff; assumption.
  - intros _ Hn Hs. apply init_raises_iff. unfold window.
    apply slice_empty_iff; lia.
  - apply init_returns.
Qed.

End InitFacts.

(** ** Answer extraction *)

Section SortedFacts.
Variable A : Type.
Variable R : A -> A -> Prop.

Lemma StronglySorted_app (l1 l2 : list A) :
  StronglySorted R l1 -> StronglySorted R l2 ->
  (forall a b, In a l1 -> In b l2 -> R a b) ->
  StronglySorted R (l1 ++ l2).
Proof.
  induction l1 as [|x l1 IH]; intros H1 H2 Hcross; simpl; [exact H2|].
  apply StronglySorted_inv in H1. destruct H1 as [Hs Hall].
  constructor.
  - apply IH; [exact Hs | exact H2 |].
    intros a b Ha Hb. apply Hcross; [right; exact Ha | exact Hb].
  - apply Forall_app. split; [exact Hall|].
    apply Forall_forall. intros b Hb. apply Hcross; [left; reflexivity|].
    exact Hb.
Qed.

Lemma StronglySorted_nth_error (l : list A) :
  StronglySorted R l ->
  forall i j a b,
    i < j -> nth_error l i = Some a -> nth_error l j = Some b -> R a b.
Proof.
  induction 1 as [|x l Hs IH Hall]; intros i j a b Hij Ha Hb.
  - destruct i; discriminate.
  - destruct j as [|j]; [lia|]. simpl in Hb. destruct i as [|i].
    + simpl in Ha. injection Ha as <-.
      rewrite Forall_forall in Hall. apply Hall.
      eapply nth_error_In. exact Hb.
    + simpl in Ha. apply (IH i j); [lia | exact Ha | exact Hb].
Qed.

End SortedFacts.

Section ExtractFacts.
Context `{env : Env}.
Import AnswerEngine.

Lemma sentences_loop_ret (s : self) (pg : nat) (sents : list (list string))
  (page_windows : list Answer) :
  ir_query_tagged s <> None ->
  sentences_loop s pg sents page_windows
  = Ret (page_windows
         ++ map (fun sentence => mkAnswer pg (join_spaces sentence))
                (filter (matches_b s) sents)).
Proof.
  intros Htag. revert page_windows.
  induction sents as [|sentence rest IH]; intros page_windows; simpl.
  - rewrite app_nil_r. reflexivity.
  - rewrite sentence_matches_ret by exact Htag. simpl.
    destruct (matches_b s sentence); rewrite IH; [|reflexivity].
    rewrite <- app_assoc. reflexivity.
Qed.

Lemma pages_loop_ret (s : self) (pgs : list Page) :
  ir_query_tagged s <> None ->
  forall (pg : nat) (answers : list Answer),
    pages_loop s pg pgs answers = Ret (answers ++ answers_from s pg pgs).
Proof.
  intros Htag. induction pgs as [|p rest IH]; intros pg answers; simpl.
  - rewrite app_nil_r. reflexivity.
  - rewrite sentences_loop_ret by exact Htag. simpl.
    rewrite IH, <- app_assoc. reflexivity.
Qed.

Lemma get_answers_ret (s : self) :
  AnswerEngine.get_answers s
  = Ret (after_get_answers s, Some (extracted s)).
Proof.
  unfold AnswerEngine.get_answers, _extract_answers.
  rewrite pages_loop_ret by (simpl; discriminate).
  reflexivity.
Qed.

Lemma page_answers_page (s : self) (pg : nat) (p : Page) (a : Answer) :
  In a (page_answers s pg p) -> page a = pg.
Proof.
  unfold page_answers. rewrite in_map_iff.
  intros [sentence [<- _]]. reflexivity.
Qed.

Lemma answers_from_bounds (s : self) (pgs : list Page) :
  forall (pg : nat) (a : Answer),
    In a (answers_from s pg pgs) -> pg <= page a < pg + length pgs.
Proof.
  induction pgs as [|p rest IH]; intros pg a Hin; simpl in Hin.
  - contradiction.
  - apply in_app_or in Hin. destruct Hin as [Hin|Hin].
    + apply page_answers_page in Hin. simpl. lia.
    + apply IH in Hin. simpl. lia.
Qed.

Lemma page_answers_sorted (s : self) (pg : nat) (p : Page) :
  StronglySorted (fun a b => page a <= page b) (page_answers s pg p).
Proof.
  unfold page_answers.
  induction (filter (matches_b s) (sentences p)) as [|x l IH]; simpl.
  - constructor.
  - constructor; [exact IH|].
    apply Forall_forall. intros b Hb. apply in_map_iff in Hb.
    destruct Hb as [sentence [<- _]]. simpl. lia.
Qed.

Lemma answers_from_sorted (s : self) (pgs : list Page) :
  forall pg : nat,
    StronglySorted (fun a b => page a <= page b) (answers_from s pg pgs).
Proof.
  induction pgs as [|p rest IH]; intros pg; simpl.
  - constructor.
  - apply StronglySorted_app.
    + apply page_answers_sorted.
    + apply IH.
    + intros a b Ha Hb. apply page_answers_page in Ha.
      apply answers_from_bounds in Hb. lia.
Qed.

Lemma filter_page_answers (s : self) (pg i : nat) (p : Page) :
  filter (fun a => Nat.eqb (page a) i) (page_answers s pg p)
  = if Nat.eqb pg i then page_answers s pg p else [].
Proof.
  unfold page_answers.
  induction (filter (matches_b s) (sentences p)) as [|x l IH]; simpl.
  - destruct (Nat.eqb pg i); reflexivity.
  - rewrite IH. destruct (Nat.eqb pg i); reflexivity.
Qed.

Lemma filter_answers_from (s : self) (i : nat) (pgs : list Page) :
  forall pg : nat,
    filter (fun a => Nat.eqb (page a) i) (answers_from s pg pgs)
    = if Nat.leb pg i
      then match nth_error pgs (i - pg) with
           | Some p => page_answers s i p
           | None => []
           end
      else [].
Proof.
  induction pgs as [|p rest IH]; intros pg; simpl.
  - destruct (Nat.leb pg i); [|reflexivity].
    destruct (i - pg); reflexivity.
  - rewrite filter_app, filter_page_answers, IH.
    destruct (Nat.eqb_spec pg i) as [->|Hne].
    + rewrite Nat.leb_refl, Nat.sub_diag.
      destruct (Nat.leb_spec (S i) i); [lia|].
      simpl. apply app_nil_r.
    + destruct (Nat.leb_spec pg i) as [Hle|Hgt].
      * destruct (Nat.leb_spec (S pg) i); [|lia].
        replace (i - pg) with (S (i - S pg)) by lia. reflexivity.
      * destruct (Nat.leb_spec (S pg) i); [lia|]. reflexivity.
Qed.

End ExtractFacts.

Section AnswerFacts.
Context `{env : Env}.
Import AnswerEngine.

Lemma matches_b_ext (s s' : self) :
  lch s = lch s' -> ir_query_tagged s = ir_query_tagged s' ->
  forall sentence, matches_b s sentence = matches_b s' sentence.
Proof.
  intros Hl Ht sentence. unfold matches_b. rewrite Hl, Ht. reflexivity.
Qed.

Lemma page_answers_ext (s s' : self) (pg : nat) (p p' : Page) :
  lch s = lch s' -> ir_query_tagged s = ir_query_tagged s' ->
  sentences p = sentences p' ->
  page_answers s pg p = page_answers s' pg p'.
Proof.
  intros Hl Ht Hs. unfold page_answers. rewrite Hs. f_equal.
  apply filter_ext. apply matches_b_ext; assumption.
Qed.

Lemma answers_from_ext (s s' : self) (pgs pgs' : list Page) :
  lch s = lch s' -> ir_query_tagged s = ir_query_tagged s' ->
  map sentences pgs = map sentences pgs' ->
  forall pg, answers_from s pg pgs = answers_from s' pg pgs'.
Proof.
  intros Hl Ht. revert pgs'.
  induction pgs as [|p rest IH]; intros [|p' rest'] Hs pg;
    try discriminate; simpl; [reflexivity|].
  simpl in Hs. injection Hs as Hp Hrest.
  rewrite (page_answers_ext s s' pg p p') by assumption.
  rewrite (IH rest') by assumption. reflexivity.
Qed.

(** C8. A run of [get_answers] returns the answers in the order of the
    engine's page list, which is the order in which the index returned
    the pages of the window, and inside one page in the order of its
    sentences: an answer of a page that stands earlier in the list comes
    before every answer of a page that stands later, and the answers of
    one page are, in order, its matching sentences joined by spaces.  When
    the engine comes from the constructor, the page list is the list
    fetched for the identifiers of the ranked window. *)
Theorem answers_follow_page_then_sentence_order (s : self) :
  exists s' answers,
    AnswerEngine.get_answers s = Ret (s', Some answers) /\
    AnswerEngine.answers s' = Some answers /\
    pages s' = map (fun pg => tokenize_sentences (preprocess pg)) (pages s) /\
    (forall i j a b,
        nth_error answers i = Some a -> nth_error answers j = Some b ->
        page a < page b -> i < j) /\
    (forall i p,
        nth_error (pages s') i = Some p ->
        map text (filter (fun a => Nat.eqb (page a) i) answers)
        = map join_spaces (filter (matches_b s') (sentences p))) /\
    (forall a, In a answers -> page a < length (pages s')) /\
    (forall index q start num_top lch,
        __init__ index q start num_top lch = Ret s ->
        pages s'
        = map (fun pg => tokenize_sentences (preprocess pg))
            (assign_cosine_sim
               (get_page index
                  (map fst (window (ranking index q) start num_top)))
               (map snd (window (ranking index q) start num_top)))).
Proof.
  exists (after_get_answers s), (extracted s).
  split; [apply get_answers_ret|]. split; [reflexivity|].
  split; [reflexivity|]. split; [|split; [|split]].
  - intros i j a b Ha Hb Hlt.
    destruct (Nat.lt_ge_cases i j) as [Hij|Hji]; [exact Hij|].
    exfalso. destruct (Nat.eq_dec i j) as [->|Hne].
    + rewrite Ha in Hb. injection Hb as ->. lia.
    + assert (Hle : page b <= page a).
      { apply (StronglySorted_nth_error _ _ _
                 (answers_from_sorted (analyzed s) (pages (analyzed s)) 0)
                 j i b a); [lia | exact Hb | exact Ha]. }
      lia.
  - intros i p Hp. unfold extracted.
    rewrite filter_answers_from. simpl Nat.leb. rewrite Nat.sub_0_r.
    change (pages (analyzed s)) with (pages (after_get_answers s)).
    rewrite Hp. unfold page_answers. rewrite map_map. reflexivity.
  - intros a Ha. apply answers_from_bounds in Ha.
    change (pages (after_get_answers s)) with (pages (analyzed s)). lia.
  - intros index q start0 num_top0 lch0 Hinit.
    rewrite init_eq in Hinit.
    destruct (window (ranking index q) start0 num_top0) as [|x w];
      [discriminate|].
    injection Hinit as <-. reflexivity.
Qed.

(** C9.  Two successive calls of [get_answers] on one engine return equal
    answer lists.  [get_answers] preprocesses and segments the pages again
    at every call, on the page objects the previous call left; the
    document operations are deterministic (functions of the page) and
    idempotent, which is used in this form: cleaning and segmenting an
    analysed page again gives the same sentences.  The query, the window
    and the pages are touched by nothing but the two calls. *)
Theorem get_answers_twice_returns_equal_answers (s : self) :
  (forall p, In p (pages s) ->
     sentences (tokenize_sentences (preprocess
                 (tokenize_sentences (preprocess p))))
     = sentences (tokenize_sentences (preprocess p))) ->
  exists s1 s2 answers,
    AnswerEngine.get_answers s = Ret (s1, Some answers) /\
    AnswerEngine.get_answers s1 = Ret (s2, Some answers).
Proof.
  intros Hidem.
  exists (after_get_answers s), (after_get_answers (after_get_answers s)),
    (extracted s).
  split; [apply get_answers_ret|].
  rewrite get_answers_ret.
  assert (Hsame : extracted (after_get_answers s) = extracted s).
  { unfold extracted. apply answers_from_ext; try reflexivity.
    simpl. rewrite !map_map. apply map_ext_in.
    intros p Hp. apply Hidem. exact Hp. }
  rewrite Hsame. reflexivity.
Qed.

End AnswerFacts.

(** ** The theorems at work on the small world *)

Section Instances.
Import AnswerEngine DemoRuns.

Example init_war_engine :
  __init__ (env := Demo.env) Demo.war_index war_query 0 10 Demo.lch_default
  = Ret war_engine.
Proof. reflexivity. Qed.

(** The end-to-end example: the sentence about the border dispute is an
    answer at the default threshold, through the verb sense of "dispute",
    and is none when the threshold is raised above every score. *)
Example war_answers :
  AnswerEngine.get_answers (env := Demo.env) war_engine
  = Ret (after_get_answers war_engine,
         Some [ mkAnswer 0 "the war did start over a border dispute";
                mkAnswer 1 "a dispute did cause the war start" ]).
Proof. rewrite get_answers_ret. reflexivity. Qed.

Example war_answers_high_threshold :
  exists s,
    __init__ (env := Demo.env) Demo.war_index war_query 0 10 (100 # 1)%Q
    = Ret s /\
    extracted s = [ mkAnswer 1 "a dispute did cause the war start" ].
Proof. eexists. split; reflexivity. Qed.

(** Ten ranked documents, [start=2], [num_top=5]: the documents at ranks
    2, 3 and 4 are analysed, not the five from rank 2 on. *)
Example ten_documents_window :
  map fst (window (env := Demo.env)
             (ranking (env := Demo.env) Demo.ten_index war_query) 2 5)
  = [102; 103; 104] /\
  (exists s,
      __init__ (env := Demo.env) Demo.ten_index war_query 2 5
        Demo.lch_default = Ret s /\
      map Demo.page_id (pages s) = [102; 103; 104]) /\
  map fst (firstn 5 (skipn 2
             (ranking (env := Demo.env) Demo.ten_index war_query)))
  = [102; 103; 104; 105; 106].
Proof.
  split; [reflexivity|]. split; [|reflexivity].
  eexists. split; reflexivity.
Qed.

(** A negative bound counts from the end, as in any Python slice: with
    three ranked documents, [num_top=-1] stands for position 2. *)
Example negative_bound_counts_from_the_end :
  map fst (window (env := Demo.env)
             (ranking (env := Demo.env) Demo.war_index war_query) 0 (-1))
  = [7; 3] /\
  exists s,
    __init__ (env := Demo.env) Demo.war_index war_query 0 (-1)
      Demo.lch_default = Ret s /\
    map Demo.page_id (pages s) = [7; 3].
Proof.
  split; [reflexivity|]. eexists. split; reflexivity.
Qed.

Lemma sentence_matches_iff_every_term_satisfied_witness :
  ir_query_tagged (_analyze_query war_engine)
  = Some (analyzed_query (env := Demo.env) ["war"; "start"]) /\
  exists decision,
    sentence_matches (_analyze_query war_engine) war_sentence
    = Ret decision /\
    (decision = true
     <-> Forall (term_satisfied (env := Demo.env) Demo.lch_default
                   war_sentence)
           (analyzed_query (env := Demo.env) ["war"; "start"])) /\
    (forall t,
        In t (analyzed_query (env := Demo.env) ["war"; "start"]) ->
        ~ term_satisfied (env := Demo.env) Demo.lch_default war_sentence t ->
        decision = false).
Proof.
  split; [reflexivity|].
  apply (sentence_matches_iff_every_term_satisfied
           (_analyze_query war_engine)
           (analyzed_query (env := Demo.env) ["war"; "start"])
           war_sentence eq_refl).
Defined.

(** The noun sense of "war" is not comparable with the verb sense of
    "cause"; the loop goes on to the senses that follow. *)
Lemma related_skips_failing_pairs_witness :
  lch_similarity (Env := Demo.env)
    (Demo.mkSyn "cause.v.01" "v") (Demo.mkSyn "dispute.n.01" "n")
  = Raise (Exn "WordNetError" "different parts of speech") /\
  related_inner (env := Demo.env) Demo.lch_default
    (Demo.mkSyn "cause.v.01" "v")
    [Demo.mkSyn "dispute.n.01" "n"; Demo.mkSyn "dispute.v.01" "v"]
  = related_inner (env := Demo.env) Demo.lch_default
      (Demo.mkSyn "cause.v.01" "v") [Demo.mkSyn "dispute.v.01" "v"] /\
  ~ raises (sentence_matches (_analyze_query war_engine) war_sentence).
Proof.
  split; [reflexivity|].
  pose proof (related_skips_failing_pairs (env := Demo.env)
                Demo.lch_default [Demo.mkSyn "cause.v.01" "v"] "dispute")
    as [Hskip [_ Hsafe]].
  split.
  - exact (Hskip (Demo.mkSyn "cause.v.01" "v")
             (Demo.mkSyn "dispute.n.01" "n")
             [Demo.mkSyn "dispute.v.01" "v"]
             (Exn "WordNetError" "different parts of speech") eq_refl).
  - apply Hsafe. discriminate.
Defined.

Lemma verbatim_term_satisfied_for_every_threshold_witness :
  In "war" (regularize (Env := Demo.env) war_sentence) /\
  term_loop (env := Demo.env) (1000000 # 1)%Q "war" []
    (regularize (Env := Demo.env) war_sentence) = Ret true /\
  term_satisfied (env := Demo.env) (1000000 # 1)%Q war_sentence ("war", []).
Proof.
  assert (Hin : In "war" (regularize (Env := Demo.env) war_sentence))
    by (left; reflexivity).
  split; [exact Hin|].
  exact (verbatim_term_satisfied_for_every_threshold (env := Demo.env)
           (1000000 # 1)%Q "war" [] war_sentence Hin).
Defined.

Lemma analyzed_query_ends_with_cause_term_witness :
  pos_tag (Env := Demo.env) [] = [] /\
  analyzed_query (env := Demo.env) []
  = [("cause", [Demo.mkSyn "cause.v.01" "v"])].
Proof.
  split; [reflexivity|].
  exact (proj2 (proj2 (proj2
           (analyzed_query_ends_with_cause_term (env := Demo.env)
              war_engine))) eq_refl).
Defined.

Lemma window_runs_from_start_to_num_top_witness :
  (0 <= 2)%Z /\ (0 <= 5)%Z /\
  window (env := Demo.env)
    (ranking (env := Demo.env) Demo.ten_index war_query) 2 5
  = skipn 2 (firstn 5 (ranking (env := Demo.env) Demo.ten_index war_query)) /\
  window (env := Demo.env)
    (ranking (env := Demo.env) Demo.ten_index war_query) 2 5 <> [] /\
  exists s,
    __init__ (env := Demo.env) Demo.ten_index war_query 2 5 Demo.lch_default
    = Ret s /\
    pages s
    = assign_cosine_sim
        (get_page (Env := Demo.env) Demo.ten_index
           (map fst (window (env := Demo.env)
                       (ranking (env := Demo.env) Demo.ten_index war_query)
                       2 5)))
        (map snd (window (env := Demo.env)
                    (ranking (env := Demo.env) Demo.ten_index war_query)
                    2 5)).
Proof.
  assert (H2 : (0 <= 2)%Z) by discriminate.
  assert (H5 : (0 <= 5)%Z) by discriminate.
  assert (Hne : window (env := Demo.env)
                  (ranking (env := Demo.env) Demo.ten_index war_query) 2 5
                <> []) by discriminate.
  split; [exact H2|]. split; [exact H5|].
  pose proof (window_runs_from_start_to_num_top (env := Demo.env)
                Demo.ten_index war_query 2 5 Demo.lch_default H2 H5) as H.
  cbv zeta in H. destruct H as [Hslice [_ [_ Hbuilds]]].
  split; [exact Hslice|]. split; [exact Hne|].
  exact (Hbuilds Hne).
Defined.

(** Three ranked documents and a window of ten asked for: no failure. *)
Lemma init_raises_only_the_unpack_error_witness :
  (0 <= 0 < Z.of_nat (length (ranking (env := Demo.env) Demo.war_index
                                war_query)))%Z /\
  (Z.of_nat (length (ranking (env := Demo.env) Demo.war_index war_query))
   < 10)%Z /\
  exists s,
    __init__ (env := Demo.env) Demo.war_index war_query 0 10
      Demo.lch_default = Ret s /\
    window (env := Demo.env)
      (ranking (env := Demo.env) Demo.war_index war_query) 0 10
    = skipn 0 (ranking (env := Demo.env) Demo.war_index war_query).
Proof.
  assert (Hs : (0 <= 0 < Z.of_nat (length (ranking (env := Demo.env)
                                             Demo.war_index war_query)))%Z)
    by (split; [discriminate | reflexivity]).
  assert (Hn : (Z.of_nat (length (ranking (env := Demo.env) Demo.war_index
                                    war_query)) < 10)%Z) by reflexivity.
  split; [exact Hs|]. split; [exact Hn|].
  exact (proj2 (proj2 (init_raises_only_the_unpack_error (env := Demo.env)
                  Demo.war_index war_query 0 10 Demo.lch_default)) Hs Hn).
Defined.

(** C6, refuted as stated.  The index ranks three documents and a window
    of ten is asked for: the constructor does not fail.  And where it does
    fail, with an offset beyond the last document, the exception is the
    interpreter's [ValueError] for the unpacking. *)
Lemma init_short_ranking_raises_nothing :
  (Z.of_nat (length (ranking (env := Demo.env) Demo.war_index war_query))
   < 10 - 0)%Z /\
  ~ raises (__init__ (env := Demo.env) Demo.war_index war_query 0 10
              Demo.lch_default) /\
  __init__ (env := Demo.env) Demo.war_index war_query 3 13 Demo.lch_default
  = Raise (Exn "ValueError" "need more than 0 values to unpack").
Proof.
  split; [reflexivity|]. split; [|reflexivity].
  intros [e He]. discriminate.
Qed.

(** With three ranked documents, [start=1] and [num_top=1] the window is
    empty and the constructor fails, although the offset is below the
    number of documents. *)
Lemma init_fails_exactly_on_empty_window_witness :
  ranking (env := Demo.env) Demo.war_index war_query <> [] /\
  (0 <= 1 <= 1)%Z /\
  (1 < Z.of_nat (length (ranking (env := Demo.env) Demo.war_index
                           war_query)))%Z /\
  raises (__init__ (env := Demo.env) Demo.war_index war_query 1 1
            Demo.lch_default).
Proof.
  assert (Hne : ranking (env := Demo.env) Demo.war_index war_query <> [])
    by discriminate.
  assert (Hn : (0 <= 1 <= 1)%Z) by (split; discriminate).
  assert (Hs : (1 < Z.of_nat (length (ranking (env := Demo.env)
                                        Demo.war_index war_query)))%Z)
    by reflexivity.
  split; [exact Hne|]. split; [exact Hn|]. split; [exact Hs|].
  exact (proj1 (proj2 (proj2
           (init_fails_exactly_on_empty_window (env := Demo.env)
              Demo.war_index war_query 1 1 Demo.lch_default))) Hne Hn Hs).
Defined.

Lemma answers_follow_page_then_sentence_order_witness :
  exists s' answers,
    AnswerEngine.get_answers war_engine = Ret (s', Some answers) /\
    AnswerEngine.answers s' = Some answers /\
    pages s'
    = map (fun pg => tokenize_sentences (preprocess pg)) (pages war_engine) /\
    (forall i j a b,
        nth_error answers i = Some a -> nth_error answers j = Some b ->
        page a < page b -> i < j) /\
    (forall i p,
        nth_error (pages s') i = Some p ->
        map text (filter (fun a => Nat.eqb (page a) i) answers)
        = map join_spaces (filter (matches_b s') (sentences p))) /\
    (forall a, In a answers -> page a < length (pages s')) /\
    (forall index q start num_top lch,
        __init__ index q start num_top lch = Ret war_engine ->
        pages s'
        = map (fun pg => tokenize_sentences (preprocess pg))
            (assign_cosine_sim
               (get_page index
                  (map fst (window (ranking index q) start num_top)))
               (map snd (window (ranking index q) start num_top)))).
Proof.
  exact (answers_follow_page_then_sentence_order war_engine).
Defined.

(** Stripping the markup again changes nothing, so the second call gives
    the same answers. *)
Lemma get_answers_twice_returns_equal_answers_witness :
  (forall p, In p (pages war_engine) ->
     sentences (Env := Demo.env)
       (tokenize_sentences (preprocess
          (tokenize_sentences (preprocess p))))
     = sentences (tokenize_sentences (preprocess p))) /\
  exists s1 s2 answers,
    AnswerEngine.get_answers war_engine = Ret (s1, Some answers) /\
    AnswerEngine.get_answers s1 = Ret (s2, Some answers).
Proof.
  assert (Hidem : forall p, In p (pages war_engine) ->
     sentences (Env := Demo.env)
       (tokenize_sentences (preprocess
          (tokenize_sentences (preprocess p))))
     = sentences (tokenize_sentences (preprocess p))).
  { intros p Hp. simpl in Hp.
    destruct Hp as [<-|[<-|[<-|[]]]]; reflexivity. }
  split; [exact Hidem|].
  exact (get_answers_twice_returns_equal_answers war_engine Hidem).
Defined.

End Instances.

(** * Further properties of the engine *)

(** ** Matching: edge cases and monotonicity *)

Section MatchingMore.
Context `{env : Env}.
Import AnswerEngine.

Lemma existsb_incl {A : Type} (f : A -> bool) (l1 l2 : list A) :
  incl l1 l2 -> existsb f l1 = true -> existsb f l2 = true.
Proof.
  intros Hincl H. apply existsb_exists in H. destruct H as [x [Hin Hx]].
  apply existsb_exists. exists x. split; [apply Hincl; exact Hin | exact Hx].
Qed.

Lemma forallb_incl {A : Type} (f : A -> bool) (l1 l2 : list A) :
  incl l1 l2 -> forallb f l2 = true -> forallb f l1 = true.
Proof.
  intros Hincl H. rewrite forallb_forall in *.
  intros x Hin. apply H. apply Hincl. exact Hin.
Qed.

(** A sentence without any regularized token is rejected as soon as the
    query has been analysed: the causal term is there to be unsatisfied. *)
Theorem empty_sentence_never_matches (s : self) (sentence : list string) :
  regularize sentence = [] ->
  sentence_matches (_analyze_query s) sentence = Ret false.
Proof.
  intros Hempty. rewrite sentence_matches_ret by discriminate.
  f_equal. unfold matches_b.
  change (ir_query_tagged (_analyze_query s))
    with (Some (analyzed_query (ir_query s))).
  rewrite analyzed_query_eq, forallb_app. unfold term_satisfied_b.
  rewrite Hempty. simpl. apply andb_false_r.
Qed.

(** A term without senses, or a sentence whose tokens all have no
    senses, leaves equality of strings as the only way to satisfy the
    term. *)
Theorem senseless_term_needs_verbatim_token
  (threshold : Score) (term : string) (synsets : list Synset)
  (page_terms : list string) :
  synsets = [] \/
  (forall token, In token page_terms -> wn_synsets token None = []) ->
  exists r,
    term_loop threshold term synsets page_terms = Ret r /\
    (r = true <-> In term page_terms).
Proof.
  intros Hnone. rewrite term_loop_ret. eexists. split; [reflexivity|].
  rewrite existsb_exists. split.
  - intros [token [Hin H]]. apply orb_true_iff in H. destruct H as [H|H].
    + apply String.eqb_eq in H. subst token. exact Hin.
    + exfalso. unfold senses_related_b in H. destruct Hnone as [->|Hnone].
      * discriminate.
      * rewrite (Hnone token Hin) in H.
        induction synsets as [|n rest IH]; simpl in H; [discriminate|].
        exact (IH H).
  - intros Hin. exists term. split; [exact Hin|].
    rewrite String.eqb_refl. reflexivity.
Qed.

(** A sentence that holds every term of the tagged query verbatim
    matches, for every threshold and whatever the senses are. *)
Theorem verbatim_sentence_matches
  (s : self) (tagged : list (string * list Synset))
  (sentence : list string) :
  ir_query_tagged s = Some tagged ->
  (forall term, In term (map fst tagged) -> In term (regularize sentence)) ->
  sentence_matches s sentence = Ret true.
Proof.
  intros Htag Hall. unfold sentence_matches. rewrite Htag, terms_loop_ret.
  f_equal. apply forallb_forall. intros [term synsets] Hin.
  unfold term_satisfied_b. apply existsb_exists. exists term. split.
  - apply Hall. apply in_map_iff. exists (term, synsets). auto.
  - simpl. rewrite String.eqb_refl. reflexivity.
Qed.

(** Matching looks at which regularized tokens a sentence has, not at
    their order or number: a sentence that matches still matches with
    more tokens, and two sentences with the same tokens get the same
    decision. *)
Theorem matching_grows_with_the_tokens
  (s : self) (sentence1 sentence2 : list string) :
  ir_query_tagged s <> None ->
  incl (regularize sentence1) (regularize sentence2) ->
  (sentence_matches s sentence1 = Ret true ->
   sentence_matches s sentence2 = Ret true) /\
  (incl (regularize sentence2) (regularize sentence1) ->
   sentence_matches s sentence1 = sentence_matches s sentence2).
Proof.
  intros Htag Hincl.
  assert (Hmono : forall a b, incl (regularize a) (regularize b) ->
            matches_b s a = true -> matches_b s b = true).
  { intros a b Hab. unfold matches_b.
    destruct (ir_query_tagged s) as [tagged|]; [|discriminate].
    rewrite !forallb_forall. intros H t Hin. specialize (H t Hin).
    unfold term_satisfied_b in *. eapply existsb_incl; eassumption. }
  rewrite !sentence_matches_ret by exact Htag. split.
  - intros H. injection H as H. f_equal. eapply Hmono; eassumption.
  - intros Hincl'. f_equal.
    destruct (matches_b s sentence1) eqn:H1;
      destruct (matches_b s sentence2) eqn:H2; try reflexivity.
    + rewrite (Hmono _ _ Hincl H1) in H2. discriminate.
    + rewrite (Hmono _ _ Hincl' H2) in H1. discriminate.
Qed.

(** A sentence that matches a tagged query matches every query made of
    some of its terms: terms only ever rule sentences out. *)
Theorem matching_shrinks_with_the_terms
  (threshold : Score) (tagged tagged' : list (string * list Synset))
  (sentence : list string) :
  incl tagged' tagged ->
  terms_loop threshold tagged sentence = Ret true ->
  terms_loop threshold tagged' sentence = Ret true.
Proof.
  intros Hincl. rewrite !terms_loop_ret. intros H. injection H as H.
  f_equal. eapply forallb_incl; eassumption.
Qed.

End MatchingMore.

(** ** The constructor: window sizes, paging, attributes *)

Lemma slice_nil {A : Type} (start stop : Z) : slice (@nil A) start stop = [].
Proof.
  unfold slice. rewrite skipn_nil, firstn_nil. reflexivity.
Qed.

Lemma slice_app {A : Type} (l : list A) (a b c : Z) :
  (0 <= a <= b)%Z -> (b <= c)%Z ->
  slice l a b ++ slice l b c = slice l a c.
Proof.
  intros Hab Hbc. rewrite !slice_nonneg by lia.
  assert (Hsplit : firstn (Z.to_nat c) l
                   = firstn (Z.to_nat b) l
                     ++ skipn (Z.to_nat b) (firstn (Z.to_nat c) l)).
  { rewrite <- (firstn_skipn (Z.to_nat b) (firstn (Z.to_nat c) l)) at 1.
    rewrite firstn_firstn. rewrite Nat.min_l by lia. reflexivity. }
  rewrite Hsplit at 2. rewrite skipn_app. f_equal.
  rewrite length_firstn.
  destruct (Nat.le_ge_cases (Z.to_nat b) (length l)) as [Hle|Hge].
  - rewrite Nat.min_l by exact Hle.
    replace (Z.to_nat a - Z.to_nat b) with 0 by lia. reflexivity.
  - rewrite (skipn_all2 (n := Z.to_nat b)).
    + rewrite skipn_nil. reflexivity.
    + rewrite length_firstn. lia.
Qed.

Section InitMore.
Context `{env : Env}.
Import AnswerEngine.

(** A query for which the index ranks no document makes the constructor
    raise, whatever the offset and the bound, negative ones included. *)
Theorem init_raises_on_empty_ranking
  (index : Index) (q : string) (start num_top : Z) (lch : Score) :
  ranking index q = [] ->
  __init__ index q start num_top lch
  = Raise (Exn "ValueError" "need more than 0 values to unpack").
Proof.
  intros Hempty. rewrite init_eq. unfold window.
  rewrite Hempty, slice_nil. reflexivity.
Qed.

(** Paging: two windows that meet, [start..mid] and [mid..stop], hold
    together the documents of the window [start..stop], each once and in
    rank order. *)
Theorem consecutive_windows_compose
  (index : Index) (q : string) (start mid stop : Z) :
  (0 <= start <= mid)%Z -> (mid <= stop)%Z ->
  window (ranking index q) start mid ++ window (ranking index q) mid stop
  = window (ranking index q) start stop.
Proof.
  intros H1 H2. unfold window. apply slice_app; assumption.
Qed.

(** The window never has more documents than the index ranked.  For an
    offset and a bound that are not negative it has
    [max(0, min(num_top, ranked) - start)] of them, and it is the whole
    ranked list when [start] is 0 and [num_top] is at least the number of
    ranked documents. *)
Theorem window_size
  (index : Index) (q : string) (start num_top : Z) :
  length (window (ranking index q) start num_top)
  <= length (ranking index q) /\
  ((0 <= start)%Z -> (0 <= num_top)%Z ->
   Z.of_nat (length (window (ranking index q) start num_top))
   = Z.max 0 (Z.min num_top (Z.of_nat (length (ranking index q))) - start)) /\
  ((Z.of_nat (length (ranking index q)) <= num_top)%Z ->
   window (ranking index q) 0 num_top = ranking index q).
Proof.
  split; [|split].
  - unfold window, slice. rewrite length_firstn, length_skipn. lia.
  - intros Hs Hn. unfold window. rewrite length_slice.
    unfold adjust_index.
    destruct (Z.ltb_spec start 0); [lia|].
    destruct (Z.ltb_spec num_top 0); [lia|]. lia.
  - intros Hn. unfold window. rewrite slice_nonneg by lia.
    simpl. apply firstn_all2. lia.
Qed.

Lemma length_assign_cosine_sim (pgs : list Page) (similarity : list Score) :
  length (assign_cosine_sim pgs similarity) = length pgs.
Proof.
  revert similarity.
  induction pgs as [|pg pgs IH]; intros [|sim similarity]; simpl;
    try reflexivity.
  rewrite IH. reflexivity.
Qed.

Lemma nth_error_assign_cosine_sim (pgs : list Page)
  (similarity : list Score) (k : nat) :
  nth_error (assign_cosine_sim pgs similarity) k
  = match nth_error pgs k, nth_error similarity k with
    | Some pg, Some sim => Some (set_cosine_sim pg sim)
    | other, _ => other
    end.
Proof.
  revert similarity k.
  induction pgs as [|pg pgs IH]; intros [|sim similarity] [|k]; simpl;
    try reflexivity.
  - destruct (nth_error pgs k); reflexivity.
  - apply IH.
Qed.

(** What a successful construction leaves in the instance: [num_pages]
    counts the whole ranked list, not the window; nothing is analysed
    or answered yet; no fetched page is dropped or added, the page at
    position [k] is the page fetched at position [k], with the score of
    the window's [k]-th entry when there is one and untouched otherwise. *)
Theorem init_attributes
  (index : Index) (q : string) (start num_top : Z) (lch : Score)
  (s : self) :
  __init__ index q start num_top lch = Ret s ->
  let w := window (ranking index q) start num_top in
  let fetched := get_page index (map fst w) in
  num_pages s = Z.of_nat (length (ranking index q)) /\
  ir_query s = regularize (tokenize q) /\
  ir_query_tagged s = None /\
  answers s = None /\
  length (pages s) = length fetched /\
  (forall k,
      nth_error (pages s) k
      = match nth_error fetched k, nth_error w k with
        | Some pg, Some entry => Some (set_cosine_sim pg (snd entry))
        | other, _ => other
        end).
Proof.
  intros Hinit w fetched. subst w fetched.
  rewrite init_eq in Hinit.
  destruct (window (ranking index q) start num_top) as [|x w] eqn:Hw;
    [discriminate|].
  injection Hinit as <-. simpl.
  repeat split; try reflexivity.
  - apply length_assign_cosine_sim.
  - intros k. rewrite nth_error_assign_cosine_sim.
    change (snd x :: map snd w) with (map snd (x :: w)).
    rewrite nth_error_map.
    destruct (nth_error (get_page index (fst x :: map fst w)) k);
      destruct (nth_error (x :: w) k); reflexivity.
Qed.

End InitMore.

(** ** Query analysis and extraction: order of calls, frame, bounds *)

Section SubseqFacts.
Context {A B : Type}.

Lemma Subseq_refl (l : list A) : Subseq l l.
Proof.
  induction l as [|x l IH]; [constructor | apply Subseq_keep; exact IH].
Qed.

Lemma Subseq_filter (f g : A -> bool) (l : list A) :
  (forall x, In x l -> f x = true -> g x = true) ->
  Subseq (filter f l) (filter g l).
Proof.
  induction l as [|x l IH]; intros Himp; simpl; [constructor|].
  assert (IH' : Subseq (filter f l) (filter g l)).
  { apply IH. intros y Hy. apply Himp. right. exact Hy. }
  destruct (f x) eqn:Hf.
  - rewrite (Himp x (or_introl eq_refl) Hf). apply Subseq_keep. exact IH'.
  - destruct (g x); [apply Subseq_skip|]; exact IH'.
Qed.

Lemma Subseq_map (h : A -> B) (l1 l2 : list A) :
  Subseq l1 l2 -> Subseq (map h l1) (map h l2).
Proof.
  induction 1; simpl; [constructor | apply Subseq_skip | apply Subseq_keep];
    assumption.
Qed.

Lemma Subseq_app (l1 l2 m1 m2 : list A) :
  Subseq l1 l2 -> Subseq m1 m2 -> Subseq (l1 ++ m1) (l2 ++ m2).
Proof.
  induction 1; intros Hm; simpl;
    [exact Hm | apply Subseq_skip; auto | apply Subseq_keep; auto].
Qed.

End SubseqFacts.

Section ExtractMore.
Context `{env : Env}.
Import AnswerEngine.

Lemma sentences_loop_unanalyzed (s : self) (pg : nat)
  (sents : list (list string)) (page_windows : list Answer) :
  ir_query_tagged s = None ->
  sentences_loop s pg sents page_windows
  = match sents with
    | [] => Ret page_windows
    | _ :: _ => Raise not_iterable
    end.
Proof.
  intros Htag. destruct sents as [|sentence rest]; [reflexivity|].
  simpl. unfold sentence_matches. rewrite Htag. reflexivity.
Qed.

Lemma pages_loop_unanalyzed (s : self) (pgs : list Page) :
  ir_query_tagged s = None ->
  forall (pg : nat) (answers : list Answer),
    pages_loop s pg pgs answers
    = if forallb (fun p => match sentences p with [] => true | _ => false end)
           pgs
      then Ret answers
      else Raise not_iterable.
Proof.
  intros Htag. induction pgs as [|p rest IH]; intros pg answers; simpl;
    [reflexivity|].
  rewrite sentences_loop_unanalyzed by exact Htag.
  destruct (sentences p); simpl; [|reflexivity].
  rewrite IH, app_nil_r. reflexivity.
Qed.

(** [_extract_answers] run before [_analyze_query]: it raises the
    [TypeError] of iterating [None] as soon as some page has a sentence;
    when no page has any, it returns and stores the empty answer list. *)
Theorem extract_before_analyze_query (s : self) :
  ir_query_tagged s = None ->
  ((exists p, In p (pages s) /\ sentences p <> []) ->
   _extract_answers s
   = Raise (Exn "TypeError" "'NoneType' object is not iterable")) /\
  ((forall p, In p (pages s) -> sentences p = []) ->
   exists s',
     _extract_answers s = Ret s' /\ answers s' = Some [] /\
     pages s' = pages s).
Proof.
  intros Htag. unfold _extract_answers.
  rewrite pages_loop_unanalyzed by exact Htag. split.
  - intros [p [Hin Hne]].
    destruct (forallb _ (pages s)) eqn:Hall; [|reflexivity].
    exfalso. rewrite forallb_forall in Hall. specialize (Hall p Hin).
    destruct (sentences p); [congruence | discriminate].
  - intros Hnone.
    assert (Hall : forallb
              (fun p => match sentences p with [] => true | _ => false end)
              (pages s) = true).
    { apply forallb_forall. intros p Hin. rewrite (Hnone p Hin).
      reflexivity. }
    rewrite Hall. simpl. eexists. repeat split.
Qed.

(** The terms of the tagged query are the tokens the tagger returned, in
    their order, followed by "cause"; a token already equal to "cause"
    does not replace the causal term. *)
Theorem analyzed_query_terms (tokens : list string) :
  map fst (analyzed_query tokens) = map fst (pos_tag tokens) ++ ["cause"] /\
  (map fst (pos_tag tokens) = tokens ->
   map fst (analyzed_query tokens) = tokens ++ ["cause"]).
Proof.
  assert (H : map fst (analyzed_query tokens)
              = map fst (pos_tag tokens) ++ ["cause"]).
  { rewrite analyzed_query_eq, map_app, map_map. reflexivity. }
  split; [exact H|]. intros Htok. rewrite H, Htok. reflexivity.
Qed.

Lemma length_page_answers (s : self) (pg : nat) (p : Page) :
  length (page_answers s pg p) <= length (sentences p).
Proof.
  unfold page_answers. rewrite length_map. apply filter_length_le.
Qed.

Lemma length_answers_from (s : self) (pgs : list Page) :
  forall pg, length (answers_from s pg pgs) <= sentence_count pgs.
Proof.
  unfold sentence_count.
  induction pgs as [|p rest IH]; intros pg; simpl; [lia|].
  rewrite length_app. pose proof (length_page_answers s pg p).
  specialize (IH (S pg)). lia.
Qed.

Lemma in_answers_from (s : self) (pgs : list Page) :
  forall pg a,
    In a (answers_from s pg pgs) ->
    exists p sentence,
      nth_error pgs (page a - pg) = Some p /\ pg <= page a /\
      In sentence (sentences p) /\ matches_b s sentence = true /\
      text a = join_spaces sentence.
Proof.
  induction pgs as [|p rest IH]; intros pg a Hin; simpl in Hin;
    [contradiction|].
  apply in_app_or in Hin. destruct Hin as [Hin|Hin].
  - unfold page_answers in Hin. apply in_map_iff in Hin.
    destruct Hin as [sentence [<- Hf]]. apply filter_In in Hf.
    destruct Hf as [Hs Hm]. exists p, sentence. simpl.
    rewrite Nat.sub_diag. auto.
  - destruct (IH (S pg) a Hin) as [p' [sentence [Hn [Hle H]]]].
    exists p', sentence. split; [|split; [lia | exact H]].
    replace (page a - pg) with (S (page a - S pg)) by lia. exact Hn.
Qed.

(** Every answer [get_answers] returns is a sentence of the page it
    refers to, as segmented by this call, joined by single spaces, and a
    sentence [sentence_matches] accepts; there are at most as many
    answers as the pages have sentences. *)
Theorem answers_are_matching_sentences (s : self) :
  exists s' result,
    AnswerEngine.get_answers s = Ret (s', Some result) /\
    length result <= sentence_count (pages s') /\
    (forall a, In a result ->
       exists p sentence,
         nth_error (pages s') (page a) = Some p /\
         In sentence (sentences p) /\
         sentence_matches s' sentence = Ret true /\
         text a = join_spaces sentence).
Proof.
  exists (after_get_answers s), (extracted s).
  split; [apply get_answers_ret|]. split.
  - apply length_answers_from.
  - intros a Hin. unfold extracted in Hin.
    destruct (in_answers_from _ _ _ _ Hin)
      as [p [sentence [Hn [_ [Hs [Hm Ht]]]]]].
    rewrite Nat.sub_0_r in Hn. exists p, sentence.
    split; [exact Hn|]. split; [exact Hs|]. split; [|exact Ht].
    rewrite sentence_matches_ret by discriminate. f_equal. exact Hm.
Qed.

Lemma matches_b_threshold (s_lo s_hi : self) (sentence : list string) :
  ir_query_tagged s_lo = ir_query_tagged s_hi ->
  (forall sc, score_ge sc (lch s_hi) = true ->
              score_ge sc (lch s_lo) = true) ->
  matches_b s_hi sentence = true -> matches_b s_lo sentence = true.
Proof.
  intros Htag Hge. unfold matches_b. rewrite Htag.
  destruct (ir_query_tagged s_hi) as [tagged|]; [|discriminate].
  rewrite !forallb_forall. intros H t Hin. specialize (H t Hin).
  unfold term_satisfied_b in *. apply existsb_exists in H.
  destruct H as [token [Htok H]]. apply existsb_exists. exists token.
  split; [exact Htok|]. apply orb_true_iff in H. apply orb_true_iff.
  destruct H as [H|H]; [left; exact H | right].
  unfold senses_related_b in *. apply existsb_exists in H.
  destruct H as [net1 [Hn1 H]]. apply existsb_exists. exists net1.
  split; [exact Hn1|]. apply existsb_exists in H.
  destruct H as [net2 [Hn2 H]]. apply existsb_exists. exists net2.
  split; [exact Hn2|]. unfold pair_reaches_b in *.
  destruct (lch_similarity net1 net2) as [sc|e]; [|discriminate].
  apply Hge. exact H.
Qed.

Lemma answers_from_threshold (s_lo s_hi : self) (pgs : list Page) :
  ir_query_tagged s_lo = ir_query_tagged s_hi ->
  (forall sc, score_ge sc (lch s_hi) = true ->
              score_ge sc (lch s_lo) = true) ->
  forall pg, Subseq (answers_from s_hi pg pgs) (answers_from s_lo pg pgs).
Proof.
  intros Htag Hge. induction pgs as [|p rest IH]; intros pg; simpl;
    [constructor|].
  apply Subseq_app; [|apply IH].
  unfold page_answers. apply Subseq_map. apply Subseq_filter.
  intros sentence _. apply matches_b_threshold; assumption.
Qed.

(** Raising the threshold only loses answers.  For two engines built on
    the same index, query and window, if every score that reaches the
    higher threshold reaches the lower one, the answers under the higher
    threshold are answers under the lower one, in the same order. *)
Theorem raising_the_threshold_only_loses_answers
  (index : Index) (q : string) (start num_top : Z) (lo hi : Score)
  (s_lo s_hi : self) :
  (forall sc, score_ge sc hi = true -> score_ge sc lo = true) ->
  __init__ index q start num_top lo = Ret s_lo ->
  __init__ index q start num_top hi = Ret s_hi ->
  exists r_lo r_hi answers_lo answers_hi,
    AnswerEngine.get_answers s_lo = Ret (r_lo, Some answers_lo) /\
    AnswerEngine.get_answers s_hi = Ret (r_hi, Some answers_hi) /\
    Subseq answers_hi answers_lo.
Proof.
  intros Hge Hlo Hhi. rewrite init_eq in Hlo, Hhi.
  destruct (window (ranking index q) start num_top) as [|x w];
    [discriminate|].
  injection Hlo as <-. injection Hhi as <-.
  eexists _, _, _, _. split; [apply get_answers_ret|].
  split; [apply get_answers_ret|].
  unfold extracted. simpl pages.
  apply answers_from_threshold; [reflexivity | exact Hge].
Qed.

End ExtractMore.

Section EntryPoints.
Context `{env : Env}.

(** [get_answers] changes nothing of the instance but the tagged query,
    the answers and the state of the pages: the query, the pagination,
    the threshold, the query tokens and the page count stay, no page is
    added or dropped, and the list it returns is the one it stores.  The
    module-level [get_answers] gives the same instance and the same
    list. *)
Theorem get_answers_frame (s : AnswerEngine.self) :
  exists s' result,
    AnswerEngine.get_answers s = Ret (s', Some result) /\
    get_answers s = Ret (s', Some result) /\
    AnswerEngine.answers s' = Some result /\
    AnswerEngine.query s' = AnswerEngine.query s /\
    AnswerEngine.start s' = AnswerEngine.start s /\
    AnswerEngine.num_top s' = AnswerEngine.num_top s /\
    AnswerEngine.lch s' = AnswerEngine.lch s /\
    AnswerEngine.ir_query s' = AnswerEngine.ir_query s /\
    AnswerEngine.num_pages s' = AnswerEngine.num_pages s /\
    length (AnswerEngine.pages s') = length (AnswerEngine.pages s) /\
    AnswerEngine.ir_query_tagged s'
    = Some (AnswerEngine.analyzed_query (AnswerEngine.ir_query s)).
Proof.
  exists (after_get_answers s), (extracted s).
  unfold get_answers. rewrite get_answers_ret. simpl.
  rewrite length_map. repeat split.
Qed.

End EntryPoints.

(** ** The further properties on the small world *)

Section MoreInstances.
Import AnswerEngine DemoRuns.

Lemma empty_sentence_never_matches_witness :
  regularize (Env := Demo.env) ["the"; "over"; "a"] = [] /\
  sentence_matches (_analyze_query war_engine) ["the"; "over"; "a"]
  = Ret false.
Proof.
  split; [reflexivity|].
  exact (empty_sentence_never_matches war_engine ["the"; "over"; "a"]
           eq_refl).
Defined.

Lemma senseless_term_needs_verbatim_token_witness :
  exists r,
    term_loop (env := Demo.env) Demo.lch_default "zeppelin" []
      ["war"; "start"] = Ret r /\
    (r = true <-> In "zeppelin" ["war"; "start"]).
Proof.
  exact (senseless_term_needs_verbatim_token (env := Demo.env)
           Demo.lch_default "zeppelin" [] ["war"; "start"]
           (or_introl eq_refl)).
Defined.

Lemma verbatim_sentence_matches_witness :
  sentence_matches (_analyze_query war_engine_strict)
    ["a"; "dispute"; "did"; "cause"; "the"; "war"; "start"]
  = Ret true.
Proof.
  apply (verbatim_sentence_matches (_analyze_query war_engine_strict)
           (analyzed_query (env := Demo.env) ["war"; "start"])
           ["a"; "dispute"; "did"; "cause"; "the"; "war"; "start"] eq_refl).
  intros term Hin. simpl in Hin.
  destruct Hin as [<-|[<-|[<-|[]]]]; simpl; auto.
Defined.

Lemma matching_grows_with_the_tokens_witness :
  sentence_matches (_analyze_query war_engine) war_sentence = Ret true.
Proof.
  refine (proj1 (matching_grows_with_the_tokens (_analyze_query war_engine)
                   ["war"; "start"; "dispute"] war_sentence _ _) eq_refl).
  - discriminate.
  - intros token Hin. simpl in Hin.
    destruct Hin as [<-|[<-|[<-|[]]]]; simpl; auto.
Defined.

Lemma matching_shrinks_with_the_terms_witness :
  terms_loop (env := Demo.env) Demo.lch_default
    (analyzed_query (env := Demo.env) ["war"]) war_sentence
  = Ret true.
Proof.
  apply (matching_shrinks_with_the_terms (env := Demo.env)
           Demo.lch_default
           (analyzed_query (env := Demo.env) ["war"; "start"])
           (analyzed_query (env := Demo.env) ["war"])
           war_sentence).
  - intros t Hin. destruct Hin as [<-|[<-|[]]].
    + left. reflexivity.
    + right. right. left. reflexivity.
  - reflexivity.
Defined.

Lemma init_raises_on_empty_ranking_witness :
  __init__ (env := Demo.env) [] war_query 0 10 Demo.lch_default
  = Raise (Exn "ValueError" "need more than 0 values to unpack").
Proof.
  exact (init_raises_on_empty_ranking (env := Demo.env) [] war_query 0 10
           Demo.lch_default eq_refl).
Defined.

(** The first three of ten documents, then the next three. *)
Lemma consecutive_windows_compose_witness :
  window (env := Demo.env)
    (ranking (env := Demo.env) Demo.ten_index war_query) 0 3
  ++ window (env := Demo.env)
       (ranking (env := Demo.env) Demo.ten_index war_query) 3 6
  = window (env := Demo.env)
      (ranking (env := Demo.env) Demo.ten_index war_query) 0 6.
Proof.
  refine (consecutive_windows_compose (env := Demo.env) Demo.ten_index
            war_query 0 3 6 _ _).
  - split; discriminate.
  - discriminate.
Defined.

Lemma window_size_witness :
  Z.of_nat (length (window (env := Demo.env)
                      (ranking (env := Demo.env) Demo.ten_index war_query)
                      2 5))
  = Z.max 0 (Z.min 5 (Z.of_nat (length (ranking (env := Demo.env)
                                          Demo.ten_index war_query))) - 2) /\
  window (env := Demo.env)
    (ranking (env := Demo.env) Demo.war_index war_query) 0 10
  = ranking (env := Demo.env) Demo.war_index war_query.
Proof.
  split.
  - refine (proj1 (proj2 (window_size (env := Demo.env) Demo.ten_index
                            war_query 2 5)) _ _); discriminate.
  - refine (proj2 (proj2 (window_size (env := Demo.env) Demo.war_index
                            war_query 0 10)) _). discriminate.
Defined.

Lemma init_attributes_witness :
  num_pages war_engine = 3%Z /\ length (pages war_engine) = 3.
Proof.
  pose proof (init_attributes (env := Demo.env) Demo.war_index war_query
                0 10 Demo.lch_default war_engine eq_refl) as H.
  cbv zeta in H. destruct H as [Hn [_ [_ [_ [Hl _]]]]].
  split; [exact Hn | exact Hl].
Defined.

(** The pages are segmented and the query is not analysed: extraction
    raises. *)
Lemma extract_before_analyze_query_witness :
  _extract_answers unanalyzed_engine
  = Raise (Exn "TypeError" "'NoneType' object is not iterable").
Proof.
  refine (proj1 (extract_before_analyze_query unanalyzed_engine eq_refl) _).
  exists (Demo.mkPage 5 ["the start"] (Some (1 # 10)%Q) [["the"; "start"]]).
  split.
  - right. right. left. reflexivity.
  - discriminate.
Defined.

Lemma analyzed_query_terms_witness :
  map fst (analyzed_query (env := Demo.env) ["cause"; "war"])
  = ["cause"; "war"] ++ ["cause"].
Proof.
  exact (proj2 (analyzed_query_terms (env := Demo.env) ["cause"; "war"])
           eq_refl).
Defined.

Lemma raising_the_threshold_only_loses_answers_witness :
  exists r_lo r_hi answers_lo answers_hi,
    AnswerEngine.get_answers war_engine = Ret (r_lo, Some answers_lo) /\
    AnswerEngine.get_answers war_engine_strict
    = Ret (r_hi, Some answers_hi) /\
    Subseq answers_hi answers_lo.
Proof.
  refine (raising_the_threshold_only_loses_answers (env := Demo.env)
            Demo.war_index war_query 0 10 Demo.lch_default strict_lch
            war_engine war_engine_strict _ eq_refl eq_refl).
  intros sc H.
  change (Qle_bool strict_lch sc = true) in H.
  change (Qle_bool Demo.lch_default sc = true).
  apply Qle_bool_iff in H. apply Qle_bool_iff.
  apply (Qle_trans _ strict_lch); [discriminate | exact H].
Defined.

End MoreInstances.
